(** * Routing and localization of a vehicle on a road network

    A shallow embedding of
    [pgdrive/scene_creator/vehicle_module/routing_localization.py]
    (class [RoutingLocalizationModule]) and the properties of its route
    planner, lane localizer, checkpoint tracker and navigation feature
    encoder.

    Conventions of the embedding:
    - Python [float]s and numpy scalars are real numbers ([R]); an [int] that
      indexes a list is a [nat], the turn sense of a circular lane is a [Z];
    - a numpy array of shape [(n,)] is a [list R] of length [n], a 2-vector
      is a pair;
    - a Python exception is the [Raise] case of [result];
    - [None] in an attribute is the [None] of [option];
    - the answer of the physics ray cast ([ray_localization]) is an input of
      the functions that consult it. *)

From Stdlib Require Import String List Bool Arith ZArith Lia Reals Lra.
Import ListNotations.

(** ** Exceptions and the error monad *)

Inductive exn : Type :=
| TypeError | AttributeError | AssertionError | KeyError | IndexError
| ValueError | ZeroDivisionError.

Inductive result (A : Type) : Type :=
| Ok (a : A)
| Raise (e : exn).
Arguments Ok {A} a.
Arguments Raise {A} e.

Definition bind {A B : Type} (c : result A) (k : A -> result B) : result B :=
  match c with
  | Ok a => k a
  | Raise e => Raise e
  end.

Notation "x <- c ;; k" := (bind c (fun x => k))
  (at level 61, c at next level, right associativity).
Notation "' p <- c ;; k" := (bind c (fun x => let 'p := x in k))
  (at level 61, p pattern, c at next level, right associativity).

Definition returns {A : Type} (c : result A) : Prop := exists a, c = Ok a.
Definition raises {A : Type} (c : result A) : Prop := exists e, c = Raise e.

(** An attribute that may hold [None]: using it as an object raises. *)
Definition not_none {A : Type} (e : exn) (o : option A) : result A :=
  match o with
  | Some a => Ok a
  | None => Raise e
  end.

(** ** Python lists *)

Module Py.
Section Lists.
Context {A : Type}.
Variable eqb : A -> A -> bool.

(** [l[k]] for [k >= 0] *)
Definition getitem (l : list A) (k : nat) : result A :=
    not_none IndexError (nth_error l k).

(** [l[-k]] for [k >= 1] *)
Definition getitem_neg (l : list A) (k : nat) : result A :=
    if k <=? length l then getitem l (length l - k) else Raise IndexError.

(** [l[j:]] *)
Definition slice_from (l : list A) (j : nat) : list A := skipn j l.

(** [l[j:-1]] *)
Definition slice_to_last (l : list A) (j : nat) : list A :=
    skipn j (removelast l).

(** [x in l] *)
Definition contains (x : A) (l : list A) : bool := existsb (eqb x) l.

(** first position of [x] in [l], positions counted from [k] *)
Fixpoint find_from (x : A) (l : list A) (k : nat) : option nat :=
    match l with
    | [] => None
    | y :: l' => if eqb x y then Some k else find_from x l' (S k)
    end.

  (** [l.index(x, start, -1)]: the position in [l] of the first [x] at or
      after [start] and before the last element *)
Definition index (l : list A) (x : A) (start : nat) : result nat :=
    not_none ValueError (find_from x (slice_to_last l start) start).
End Lists.
End Py.

(** ** Numbers *)

Local Open Scope R_scope.

Definition vec2 : Type := (R * R)%type.
Definition vec3 : Type := (R * R * R)%type.

Definition Rltb (a b : R) : bool := if Rlt_dec a b then true else false.

(** Modelled from the spec: [pgdrive.utils.clip] is not among the sources;
    the encoder's scalars are "each clamped to [0,1]", the usual
    [min(max(a, low), high)]. *)
Definition clip (a low high : R) : R := Rmin (Rmax a low) high.

(** Modelled from the spec: [pgdrive.utils.norm] is not among the sources;
    it is the magnitude of a 2-vector given by its components. *)
Definition norm (x y : R) : R := sqrt (x * x + y * y).

(** [numpy.rad2deg] *)
Definition rad2deg (x : R) : R := x * 180 / PI.

(** ** Data model *)

(** Modelled from the spec: the lane classes are not among the sources.
    A lane has a length and a parametric centerline; a circular lane
    ([isinstance(lane, CircularLane)]) also has a radius, a turn sense and
    its start and end phases.  [uid] stands for the identity of the Python
    object, by which [lane in lanes] compares lanes. *)
Module CircularLane.
Record t : Type := mk {
  radius : R;
  direction : Z;
  start_phase : R;
  end_phase : R
}.
End CircularLane.

Module Lane.
Record t : Type := mk {
  uid : nat;
  length : R;
  position : R -> R -> vec2;
  heading_at : R -> R;
  local_coordinates : vec2 -> vec2;
  circular : option CircularLane.t
}.
Definition eqb (a b : t) : bool := Nat.eqb (uid a) (uid b).
End Lane.

(** A lane index is [(start node, end node, lane number)]. *)
Definition LaneIndex : Type := (string * string * nat)%type.
Definition lane_index_0 (i : LaneIndex) : string := fst (fst i).

(** Modelled from the spec: the class [Road] is not among the sources.  A
    road is the ordered pair of its start and end nodes. *)
Module Road.
Record t : Type := mk { start_node : string; end_node : string }.
End Road.

(** A Python [dict] with string keys, read only here. *)
Definition dict (V : Type) : Type := list (string * V).

Fixpoint dict_get {V : Type} (d : dict V) (k : string) : result V :=
  match d with
  | [] => Raise KeyError
  | (k', v) :: d' => if String.eqb k k' then Ok v else dict_get d' k
  end.

(** Modelled from the spec: the road network is not among the sources.  It
    maps a start node to a map from end nodes to the parallel lanes of that
    road, and answers [shortest_path], [get_closest_lane_index] and
    [get_lane]. *)
Module RoadNetwork.
Record t : Type := mk {
  graph : dict (dict (list Lane.t));
  shortest_path : string -> string -> result (list string);
  get_closest_lane_index : vec2 -> LaneIndex * R;
  get_lane : LaneIndex -> result Lane.t
}.
(** [graph[a][b]] *)
Definition lanes (n : t) (a b : string) : result (list Lane.t) :=
  d <- dict_get (graph n) a ;; dict_get d b.
End RoadNetwork.

(** [Road.get_lanes(road_network)]: the lanes the graph holds for the
    road. *)
Definition Road_get_lanes (r : Road.t) (n : RoadNetwork.t)
  : result (list Lane.t) :=
  RoadNetwork.lanes n (Road.start_node r) (Road.end_node r).

Module Map.
Record t : Type := mk {
  road_network : RoadNetwork.t;
  (** [config[LANE_WIDTH]] *)
  lane_width : R
}.
End Map.

(** The attributes and the one method of the ego vehicle that the module
    reads and writes; the vehicle class is not among the sources, and
    [projection] stands for its method of that name. *)
Module Vehicle.
Record t : Type := mk {
  position : vec2;
  lane : Lane.t;
  lane_index : LaneIndex;
  on_lane : bool;
  projection : vec2 -> vec2
}.
Definition set_on_lane (v : t) (b : bool) : t :=
  mk (position v) (lane v) (lane_index v) b (projection v).
End Vehicle.

(** [BlockParameterSpace.CURVE[Parameter.radius].max] and
    [BlockParameterSpace.CURVE[Parameter.angle].max], constants of a module
    that is not among the sources. *)
Module CurveSpace.
Record t : Type := mk { radius_max : R; angle_max : R }.
End CurveSpace.

(** One hit of the ray cast: [(lane, index, l_1_dist)]. *)
Definition hit : Type := (Lane.t * LaneIndex * R)%type.

(** ** The module *)

Module RoutingLocalizationModule.

Definition navigation_info_dim : nat := 10.
Definition NAVI_POINT_DIST : R := 50.
Definition PRE_NOTIFY_DIST : R := 40.
Definition CKPT_UPDATE_RANGE : R := 5.

(** The attributes of an instance.  [_target_checkpoints_index] is the
    two-element list [[i, j]]; [_dest_node_path] and [_goal_node_path] are
    scene nodes, present when navigation marks are shown, of which the
    position is kept. *)
Record t : Type := mk {
  map : option Map.t;
  final_road : option Road.t;
  checkpoints : option (list string);
  final_lane : option Lane.t;
  current_ref_lanes : option (list Lane.t);
  current_road : option Road.t;
  _target_checkpoints_index : option (nat * nat);
  _navi_info : list R;
  FORCE_CALCULATE : bool;
  _show_navi_info : bool;
  _dest_node_path : option vec3;
  _goal_node_path : option vec3
}.

(** [np.zeros((n,))] and [a.fill(0.0)] *)
Definition np_zeros (n : nat) : list R := repeat 0 n.
Definition np_fill (a : list R) (x : R) : list R := List.map (fun _ => x) a.

(** [a[:k] = vals] and [a[k:] = vals] for a sequence [vals]; the shapes must
    agree. *)
Definition np_set_head (a : list R) (k : nat) (vals : list R)
  : result (list R) :=
  if (List.length vals =? Nat.min k (List.length a))%nat
  then Ok (vals ++ skipn k a) else Raise ValueError.
Definition np_set_tail (a : list R) (k : nat) (vals : list R)
  : result (list R) :=
  if (List.length vals =? List.length a - k)%nat
  then Ok (firstn k a ++ vals) else Raise ValueError.

(** [__init__]: [onscreen] is the value computed for [_show_navi_info] from
    the world's mode. *)
Definition __init__ (onscreen : bool) : t :=
  let node := if onscreen then Some (0, 0, 0) else None in
  mk None None None None None None None (np_zeros navigation_info_dim)
     false onscreen node node.

(** The first statement of [update]: [self.map = map]. *)
Definition with_map (self : t) (m : Map.t) : t :=
  mk (Some m) (final_road self) (checkpoints self) (final_lane self)
     (current_ref_lanes self) (current_road self)
     (_target_checkpoints_index self) (_navi_info self)
     (FORCE_CALCULATE self) (_show_navi_info self)
     (_dest_node_path self) (_goal_node_path self).

Definition set_force_calculate_lane_index (self : t) (force : bool) : t :=
  mk (map self) (final_road self) (checkpoints self) (final_lane self)
     (current_ref_lanes self) (current_road self)
     (_target_checkpoints_index self) (_navi_info self)
     force (_show_navi_info self)
     (_dest_node_path self) (_goal_node_path self).

Definition get_current_lane_width (self : t) : result R :=
  m <- not_none AttributeError (map self) ;; Ok (Map.lane_width m).

Definition get_current_lane_num (self : t) : result nat :=
  refs <- not_none TypeError (current_ref_lanes self) ;;
  Ok (List.length refs).

(** [(float(n) / 2 - 0.5) * width] *)
Definition later_middle_of (lane_num : nat) (lane_width : R) : R :=
  (INR lane_num / 2 - 1 / 2) * lane_width.

(** [ref_lane.position(ref_lane.length, later_middle)] *)
Definition lane_end_point (ref_lane : Lane.t) (later_middle : R) : vec2 :=
  Lane.position ref_lane (Lane.length ref_lane) later_middle.

(** The argument of [setPos] for a mark over [check_point]:
    [(check_point[0], -check_point[1], 1.8)] *)
Definition mark_position (check_point : vec2) : vec3 :=
  (fst check_point, - snd check_point, 18 / 10).

Definition set_route (self : t) (start_road_node end_road_node : string)
  : result t :=
  m <- not_none AttributeError (map self) ;;
  let network := Map.road_network m in
  cps <- RoadNetwork.shortest_path network start_road_node end_road_node ;;
  if negb (2 <? List.length cps)%nat then Raise AssertionError else
  cp_last2 <- Py.getitem_neg cps 2 ;;
  let final_road' := Road.mk cp_last2 end_road_node in
  final_lanes <- Road_get_lanes final_road' network ;;
  final_lane' <- Py.getitem_neg final_lanes 1 ;;
  target_road_1_start <- Py.getitem cps 0 ;;
  target_road_1_end <- Py.getitem cps 1 ;;
  ref_lanes <- RoadNetwork.lanes network target_road_1_start target_road_1_end ;;
  let routed dest :=
    mk (map self) (Some final_road') (Some cps) (Some final_lane')
       (Some ref_lanes) (Some (Road.mk target_road_1_start target_road_1_end))
       (Some (0, 1)%nat) (np_fill (_navi_info self) 0)
       (FORCE_CALCULATE self) (_show_navi_info self)
       dest (_goal_node_path self) in
  match _dest_node_path self with
  | None => Ok (routed None)
  | Some _ =>
      ref_lane <- Py.getitem final_lanes 0 ;;
      let later_middle :=
        later_middle_of (List.length ref_lanes) (Map.lane_width m) in
      let check_point := lane_end_point ref_lane later_middle in
      Ok (routed (Some (mark_position check_point)))
  end.

(** The [for] loop of [get_current_lane]: [Ok None] when it runs to its
    end. *)
Fixpoint get_current_lane_loop (self : t) (possible_lanes : list hit)
  : result (option (Lane.t * LaneIndex)) :=
  match possible_lanes with
  | [] => Ok None
  | (lane, index, _) :: rest =>
      refs <- not_none TypeError (current_ref_lanes self) ;;
      if Py.contains Lane.eqb lane refs then Ok (Some (lane, index))
      else get_current_lane_loop self rest
  end.

(** [get_current_lane], on the hits [possible_lanes] the ray cast gave;
    [Ok None] is the pair [(None, None)]. *)
Definition get_current_lane (self : t) (possible_lanes : list hit)
  : result (option (Lane.t * LaneIndex)) :=
  found <- get_current_lane_loop self possible_lanes ;;
  match found with
  | Some r => Ok (Some r)
  | None =>
      match possible_lanes with
      | (lane, index, _) :: _ => Ok (Some (lane, index))
      | [] => Ok None
      end
  end.

Definition set_target_checkpoints_index (self : t) (w : nat * nat) : t :=
  mk (map self) (final_road self) (checkpoints self) (final_lane self)
     (current_ref_lanes self) (current_road self)
     (Some w) (_navi_info self)
     (FORCE_CALCULATE self) (_show_navi_info self)
     (_dest_node_path self) (_goal_node_path self).

Definition _update_target_checkpoints
  (self : t) (ego_lane_index : LaneIndex) (ego_lane_longitude : R)
  : result (t * bool) :=
  '(i, j) <- not_none TypeError (_target_checkpoints_index self) ;;
  if (i =? j)%nat then Ok (self, false) else
  let current_road_start_point := lane_index_0 ego_lane_index in
  cps <- not_none TypeError (checkpoints self) ;;
  if Py.contains String.eqb current_road_start_point (Py.slice_from cps j)
     && Rltb ego_lane_longitude CKPT_UPDATE_RANGE
  then
    if negb (Py.contains String.eqb current_road_start_point
                         (Py.slice_to_last cps j))
    then Ok (self, false)
    else
      idx <- Py.index String.eqb cps current_road_start_point j ;;
      let w := if (idx + 1 =? List.length cps - 1)%nat
               then (idx, idx) else (idx, idx + 1)%nat in
      Ok (set_target_checkpoints_index self w, true)
  else Ok (self, false).

(** Lines 218-221 of [_get_info_for_checkpoint]: the vector from the vehicle
    to the checkpoint, cut to [NAVI_POINT_DIST]. *)
Definition dir_vec_to (check_point position : vec2) : vec2 :=
  let dir_vec := (fst check_point - fst position,
                  snd check_point - snd position) in
  let dir_norm := norm (fst dir_vec) (snd dir_vec) in
  if Rltb NAVI_POINT_DIST dir_norm
  then (fst dir_vec / dir_norm * NAVI_POINT_DIST,
        snd dir_vec / dir_norm * NAVI_POINT_DIST)
  else dir_vec.

(** Lines 223-235: [(bendradius, dir, angle)] of the reference lane. *)
Definition bend_of (space : CurveSpace.t) (ref_lane : Lane.t)
  (lane_num : nat) (lane_width : R) : result (R * R * R) :=
  match Lane.circular ref_lane with
  | None => Ok (0, 0, 0)
  | Some c =>
      let denom := CurveSpace.radius_max space + INR lane_num * lane_width in
      if Req_dec_T denom 0 then Raise ZeroDivisionError else
      let bendradius := CircularLane.radius c / denom in
      let dir := CircularLane.direction c in
      let angle :=
        if (dir =? 1)%Z
        then CircularLane.end_phase c - CircularLane.start_phase c
        else if (dir =? -1)%Z
        then CircularLane.start_phase c - CircularLane.end_phase c
        else 0 in
      Ok (bendradius, IZR dir, angle)
  end.

(** The five scalars of one checkpoint (lines 236-240). *)
Definition encode (space : CurveSpace.t)
  (proj_heading proj_side bendradius dir angle : R) : list R :=
  [ clip ((proj_heading / NAVI_POINT_DIST + 1) / 2) 0 1;
    clip ((proj_side / NAVI_POINT_DIST + 1) / 2) 0 1;
    clip bendradius 0 1;
    clip ((dir + 1) / 2) 0 1;
    clip ((rad2deg angle / CurveSpace.angle_max space + 1) / 2) 0 1 ].

Definition _get_info_for_checkpoint (space : CurveSpace.t) (self : t)
  (lanes_id : nat) (lanes : list Lane.t) (ego_vehicle : Vehicle.t)
  : result (list R * R * vec2) :=
  ref_lane <- Py.getitem lanes 0 ;;
  lane_num <- get_current_lane_num self ;;
  lane_width <- get_current_lane_width self ;;
  let later_middle := later_middle_of lane_num lane_width in
  let check_point := lane_end_point ref_lane later_middle in
  let lanes_heading :=
    if (lanes_id =? 0)%nat
    then Lane.heading_at ref_lane
           (fst (Lane.local_coordinates ref_lane
                   (Vehicle.position ego_vehicle)))
    else Lane.heading_at ref_lane
           (Rmin PRE_NOTIFY_DIST (Lane.length ref_lane)) in
  let dir_vec := dir_vec_to check_point (Vehicle.position ego_vehicle) in
  let '(proj_heading, proj_side) := Vehicle.projection ego_vehicle dir_vec in
  '(bendradius, dir, angle) <- bend_of space ref_lane lane_num lane_width ;;
  Ok (encode space proj_heading proj_side bendradius dir angle,
      lanes_heading, check_point).

(** Lines 176-179 of [update_navigation_localization]: the four reads of
    [checkpoints] through the window. *)
Definition target_roads (cps : list string) (w : nat * nat)
  : result (string * string * string * string) :=
  target_road_1_start <- Py.getitem cps (fst w) ;;
  target_road_1_end <- Py.getitem cps (fst w + 1) ;;
  target_road_2_start <- Py.getitem cps (snd w) ;;
  target_road_2_end <- Py.getitem cps (snd w + 1) ;;
  Ok (target_road_1_start, target_road_1_end,
      target_road_2_start, target_road_2_end).

Definition set_navigation (self : t) (ref_lanes : list Lane.t)
  (road : Road.t) (navi : list R) (goal : option vec3) : t :=
  mk (map self) (final_road self) (checkpoints self) (final_lane self)
     (Some ref_lanes) (Some road)
     (_target_checkpoints_index self) navi
     (FORCE_CALCULATE self) (_show_navi_info self)
     (_dest_node_path self) goal.

(** [update_navigation_localization], on the hits [possible_lanes] of the
    ray cast made by [get_current_lane].  The arrows and the line to the
    destination, drawn when marks are shown, touch the scene graph only and
    are left out; the goal mark keeps its position. *)
Definition update_navigation_localization (space : CurveSpace.t) (self : t)
  (ego_vehicle : Vehicle.t) (possible_lanes : list hit)
  : result (t * Vehicle.t * (Lane.t * LaneIndex)) :=
  let position := Vehicle.position ego_vehicle in
  found <- get_current_lane self possible_lanes ;;
  '(lane, lane_index, ego_vehicle) <-
    match found with
    | Some (lane, lane_index) => Ok (lane, lane_index, ego_vehicle)
    | None =>
        let ego_vehicle := Vehicle.set_on_lane ego_vehicle false in
        if FORCE_CALCULATE self then
          m <- not_none AttributeError (map self) ;;
          let '(lane_index, _) :=
            RoadNetwork.get_closest_lane_index (Map.road_network m) position in
          lane <- RoadNetwork.get_lane (Map.road_network m) lane_index ;;
          Ok (lane, lane_index, ego_vehicle)
        else
          Ok (Vehicle.lane ego_vehicle, Vehicle.lane_index ego_vehicle,
              ego_vehicle)
    end ;;
  let long := fst (Lane.local_coordinates lane position) in
  '(self, _) <- _update_target_checkpoints self lane_index long ;;
  cps <- not_none TypeError (checkpoints self) ;;
  if negb (2 <? List.length cps)%nat then Raise AssertionError else
  w <- not_none TypeError (_target_checkpoints_index self) ;;
  '(target_road_1_start, target_road_1_end,
    target_road_2_start, target_road_2_end) <- target_roads cps w ;;
  m <- not_none AttributeError (map self) ;;
  let network := Map.road_network m in
  target_lanes_1 <-
    RoadNetwork.lanes network target_road_1_start target_road_1_end ;;
  target_lanes_2 <-
    RoadNetwork.lanes network target_road_2_start target_road_2_end ;;
  let self :=
    set_navigation self target_lanes_1
      (Road.mk target_road_1_start target_road_1_end)
      (np_fill (_navi_info self) 0) (_goal_node_path self) in
  let half := (navigation_info_dim / 2)%nat in
  '(info1, lanes_heading1, checkpoint) <-
    _get_info_for_checkpoint space self 0 target_lanes_1 ego_vehicle ;;
  navi1 <- np_set_head (_navi_info self) half info1 ;;
  '(info2, lanes_heading2, _) <-
    _get_info_for_checkpoint space self 1 target_lanes_2 ego_vehicle ;;
  navi2 <- np_set_tail navi1 half info2 ;;
  goal <-
    (if _show_navi_info self then
       _ <- not_none AttributeError (_goal_node_path self) ;;
       Ok (Some (mark_position checkpoint))
     else Ok (_goal_node_path self)) ;;
  Ok (set_navigation self target_lanes_1
        (Road.mk target_road_1_start target_road_1_end) navi2 goal,
      ego_vehicle, (lane, lane_index)).

Definition get_navi_info (self : t) : list R := _navi_info self.

End RoutingLocalizationModule.

Import RoutingLocalizationModule.

(** ** Runs of the checkpoint tracker *)

(** One call of [_update_target_checkpoints] per tick, each with the lane
    index and the longitude localization found. *)
Fixpoint run_ticks (self : t) (ticks : list (LaneIndex * R)) : result t :=
  match ticks with
  | [] => Ok self
  | (ego_lane_index, ego_lane_longitude) :: rest =>
      '(self', _) <-
        _update_target_checkpoints self ego_lane_index ego_lane_longitude ;;
      run_ticks self' rest
  end.

(** [idx] is the first position of [node] in [cps] from [j] on, the last
    element of [cps] left out. *)
Definition first_index_from (cps : list string) (node : string) (j idx : nat)
  : Prop :=
  (j <= idx)%nat /\ (idx < List.length cps - 1)%nat /\
  nth_error cps idx = Some node /\
  forall k, (j <= k < idx)%nat -> nth_error cps k <> Some node.

(** The window after a jump to [idx]. *)
Definition window_at (cps : list string) (idx : nat) : nat * nat :=
  if (idx + 1 =? List.length cps - 1)%nat
  then (idx, idx) else (idx, (idx + 1)%nat).

(** Both indices before the last position, the second the first or one
    more. *)
Definition window_invariant (cps : list string) (w : nat * nat) : Prop :=
  (fst w < List.length cps - 1)%nat /\ (snd w < List.length cps - 1)%nat /\
  (snd w = fst w \/ snd w = S (fst w)).

(** What the tracker keeps: the window is [[i, i + 1]] before the last
    segment, or has collapsed to [[i, i]] on the last segment. *)
Definition tracker_invariant (cps : list string) (w : nat * nat) : Prop :=
  (snd w = S (fst w) /\ (snd w < List.length cps - 1)%nat) \/
  (snd w = fst w /\ (fst w + 2)%nat = List.length cps).

(** ** Road networks that answer with paths of their own *)

Fixpoint roads_of (cps : list string) : list (string * string) :=
  match cps with
  | a :: (b :: _) as rest => (a, b) :: roads_of rest
  | _ => []
  end.

(** The road [r] is in the graph and carries at least one lane. *)
Definition carries_lanes (n : RoadNetwork.t) (r : string * string) : Prop :=
  exists l ls, RoadNetwork.lanes n (fst r) (snd r) = Ok (l :: ls).

(** Whatever [shortest_path] returns runs along roads of the graph, each
    with a lane, and ends at the node asked for. *)
Definition sound_shortest_path (n : RoadNetwork.t) : Prop :=
  forall a b cps,
    RoadNetwork.shortest_path n a b = Ok cps ->
    Forall (carries_lanes n) (roads_of cps) /\
    (cps <> [] -> last cps b = b).

Definition in_unit_interval (x : R) : Prop := 0 <= x <= 1.

(** ** The states a module goes through

    From construction, through the calls that change it; a call that raises
    leaves no state to go on from. *)
Inductive reachable (space : CurveSpace.t) : t -> Prop :=
| reach_init onscreen : reachable space (__init__ onscreen)
| reach_map self m : reachable space self -> reachable space (with_map self m)
| reach_force self force :
    reachable space self ->
    reachable space (set_force_calculate_lane_index self force)
| reach_set_route self a b self' :
    reachable space self ->
    set_route self a b = Ok self' ->
    reachable space self'
| reach_update self ego_vehicle possible_lanes self' ego_vehicle' r :
    reachable space self ->
    update_navigation_localization space self ego_vehicle possible_lanes
      = Ok (self', ego_vehicle', r) ->
    reachable space self'.

(** The turn angle [_get_info_for_checkpoint] takes for a circular lane. *)
Definition arc_angle (c : CircularLane.t) : R :=
  if (CircularLane.direction c =? 1)%Z
  then CircularLane.end_phase c - CircularLane.start_phase c
  else if (CircularLane.direction c =? -1)%Z
  then CircularLane.start_phase c - CircularLane.end_phase c
  else 0.

(** ** A small network

    Three roads in a row, [A -> B -> C -> D], two lanes each, 3.5 wide; the
    road in the middle is a bend.  The geometry of a lane is reduced to its
    length, where it starts along the route ([origin]) and how far it lies
    to the side of the first lane ([shift]). *)
Module Example.

Definition lane_at (uid : nat) (origin len shift : R)
  (bend : option CircularLane.t) : Lane.t :=
  Lane.mk uid len
    (fun long lat => (origin + long, lat + shift))
    (fun _ => 0)
    (fun p => (fst p - origin, snd p - shift))
    bend.

Definition quarter_turn : CircularLane.t :=
  CircularLane.mk 30 1 0 (PI / 2).

Definition ab0 : Lane.t := lane_at 1 0 30 0 None.
Definition ab1 : Lane.t := lane_at 2 0 30 (7 / 2) None.
Definition bc0 : Lane.t := lane_at 3 30 40 0 (Some quarter_turn).
Definition bc1 : Lane.t := lane_at 4 30 40 (7 / 2) (Some quarter_turn).
Definition cd0 : Lane.t := lane_at 5 70 30 0 None.
Definition cd1 : Lane.t := lane_at 6 70 30 (7 / 2) None.

Definition graph : dict (dict (list Lane.t)) :=
  [ ("A", [("B", [ab0; ab1])]);
    ("B", [("C", [bc0; bc1])]);
    ("C", [("D", [cd0; cd1])]) ]%string.

Definition shortest_path (a b : string) : result (list string) :=
  if (String.eqb a "A" && String.eqb b "D")%bool
  then Ok ["A"; "B"; "C"; "D"]%string
  else if (String.eqb a "B" && String.eqb b "D")%bool
  then Ok ["B"; "C"; "D"]%string
  else if (String.eqb a "C" && String.eqb b "D")%bool
  then Ok ["C"; "D"]%string
  else Ok [].

Definition get_lane (i : LaneIndex) : result Lane.t :=
  let '(a, b, k) := i in
  d <- dict_get graph a ;; ls <- dict_get d b ;; Py.getitem ls k.

Definition network : RoadNetwork.t :=
  RoadNetwork.mk graph shortest_path
    (fun _ => (("A", "B", 0%nat)%string, 0)) get_lane.

Definition map : Map.t := Map.mk network (7 / 2).

Definition space : CurveSpace.t := CurveSpace.mk 60 135.

(** A vehicle that heads along the route: its frame is the world's. *)
Definition vehicle_at (x y : R) : Vehicle.t :=
  Vehicle.mk (x, y) ab0 ("A", "B", 0%nat)%string true (fun v => v).

Definition route : list string := ["A"; "B"; "C"; "D"]%string.

(** A module that has its map, without and with navigation marks. *)
Definition fresh : t := with_map (__init__ false) map.
Definition shown : t := with_map (__init__ true) map.

(** [fresh] after [set_route("A", "D")]. *)
Definition routed : t :=
  mk (Some map) (Some (Road.mk "C" "D")) (Some route) (Some cd1)
     (Some [ab0; ab1]) (Some (Road.mk "A" "B")) (Some (0, 1)%nat)
     (np_fill (np_zeros navigation_info_dim) 0) false false None None.

End Example.

From Stdlib Require Import Sorting.Permutation Sorting.Sorted.

(** ** Longer runs *)

(** A run of the tracker that also counts the calls that returned
    [True]. *)
Fixpoint run_ticks_count (self : t) (ticks : list (LaneIndex * R))
  : result (t * nat) :=
  match ticks with
  | [] => Ok (self, 0%nat)
  | (ego_lane_index, ego_lane_longitude) :: rest =>
      '(self', changed) <-
        _update_target_checkpoints self ego_lane_index ego_lane_longitude ;;
      '(self'', n) <- run_ticks_count self' rest ;;
      Ok (self'', if changed then S n else n)
  end.

(** One call of [update_navigation_localization] per simulation step, each
    with the vehicle as it is then and the hits of its ray cast. *)
Fixpoint drive (space : CurveSpace.t) (self : t)
  (steps : list (Vehicle.t * list hit)) : result t :=
  match steps with
  | [] => Ok self
  | (ego_vehicle, possible_lanes) :: rest =>
      '(self', _, _) <-
        update_navigation_localization space self ego_vehicle possible_lanes ;;
      drive space self' rest
  end.

(** A module that can be driven: it has its map and a route along roads of
    the graph that carry lanes, its window satisfies the invariant of the
    tracker, its feature vector has its ten places, the goal mark exists if
    marks are shown, and the nearest-lane search is off. *)
Definition drivable (m : Map.t) (cps : list string) (self : t) : Prop :=
  map self = Some m /\
  checkpoints self = Some cps /\
  (2 < List.length cps)%nat /\
  Forall (carries_lanes (Map.road_network m)) (roads_of cps) /\
  (exists w, _target_checkpoints_index self = Some w /\
             tracker_invariant cps w) /\
  (exists refs, current_ref_lanes self = Some refs) /\
  List.length (_navi_info self) = navigation_info_dim /\
  (_show_navi_info self = true -> _goal_node_path self <> None) /\
  FORCE_CALCULATE self = false.

(** ** The navigation arrows

    [_update_navi_arrow] reads and writes three attributes of the module
    only: [_is_showing] and, of the scene nodes [_left_arrow] and
    [_right_arrow], whether each hangs under [_arrow_node_path]
    ([hasParent()]; [reparentTo] makes it true, [detachNode] false). *)
Module Arrows.
Record t : Type := mk {
  _is_showing : bool;
  _left_arrow : bool;
  _right_arrow : bool
}.
(** As [__init__] leaves them when marks are shown: both arrows attached. *)
Definition initial : t := mk true true true.
End Arrows.

(** [numpy.cross] of two 3-vectors *)
Definition np_cross (a b : vec3) : vec3 :=
  let '(a1, a2, a3) := a in
  let '(b1, b2, b3) := b in
  (a2 * b3 - a3 * b2, a3 * b1 - a1 * b3, a1 * b2 - a2 * b1).

Definition _update_navi_arrow (self : Arrows.t) (lanes_heading : list R)
  : result Arrows.t :=
  lane_0_heading <- Py.getitem lanes_heading 0 ;;
  lane_1_heading <- Py.getitem lanes_heading 1 ;;
  if Rltb (Rabs (lane_0_heading - lane_1_heading)) (1 / 100) then
    if Arrows._is_showing self
    then Ok (Arrows.mk false false false)
    else Ok self
  else
    let dir_0 := (cos lane_0_heading, sin lane_0_heading, 0) in
    let dir_1 := (cos lane_1_heading, sin lane_1_heading, 0) in
    let cross_product := np_cross dir_1 dir_0 in
    let left := if Rltb (snd cross_product) 0 then false else true in
    let showing := if negb (Arrows._is_showing self) then true
                   else Arrows._is_showing self in
    if left then
      let left_arrow := if negb (Arrows._left_arrow self) then true
                        else Arrows._left_arrow self in
      let right_arrow := if Arrows._right_arrow self then false
                         else Arrows._right_arrow self in
      Ok (Arrows.mk showing left_arrow right_arrow)
    else
      let right_arrow := if negb (Arrows._right_arrow self) then true
                         else Arrows._right_arrow self in
      let left_arrow := if Arrows._left_arrow self then false
                        else Arrows._left_arrow self in
      Ok (Arrows.mk showing left_arrow right_arrow).

(** The arrows over a drive: one call per step with the two headings
    [update_navigation_localization] computed. *)
Fixpoint run_arrows (self : Arrows.t) (headings : list (R * R))
  : result Arrows.t :=
  match headings with
  | [] => Ok self
  | (h1, h2) :: rest =>
      self' <- _update_navi_arrow self [h1; h2] ;;
      run_arrows self' rest
  end.

(** ** Choosing a destination: [update]

    Modelled from the spec: blocks and sockets are not among the sources.
    A socket is a branch point of the graph with a positive and a negative
    road; [is_socket_node] stands for its method of that name and [uid] for
    the identity of the object, by which [sockets.remove(socket)] finds
    it.  A block is given by the list [get_socket_list()] returns. *)
Module Socket.
Record t : Type := mk {
  uid : nat;
  positive_road : Road.t;
  negative_road : Road.t;
  is_socket_node : string -> bool
}.
Definition eqb (a b : t) : bool := Nat.eqb (uid a) (uid b).
End Socket.

(** The map [update] is given: what the module keeps of it, and its blocks,
    each with its sockets. *)
Module BlockMap.
Record t : Type := mk {
  map : Map.t;
  blocks : list (list Socket.t)
}.
End BlockMap.

(** What [update] takes from code that is not among the sources: the node
    [FirstBlock.NODE_1]; [Road(start, end).is_negative_road()] for a start
    node that may be [None]; and the index
    [get_np_random(random_seed).choice(sockets)] draws from a list of a
    given length (the list is shorter at every draw, so its length tells
    the draws apart), taken modulo that length. *)
Module World.
Record t : Type := mk {
  NODE_1 : string;
  is_negative_road : option string -> string -> result bool;
  choice : nat -> nat
}.
End World.

(** [sockets.remove(socket)]: without the first element equal to
    [socket]. *)
Fixpoint remove_first (socket : Socket.t) (sockets : list Socket.t)
  : list Socket.t :=
  match sockets with
  | [] => []
  | x :: rest =>
      if Socket.eqb x socket then rest else x :: remove_first socket rest
  end.

(** The [while True] loop of [update], at most [fuel] rounds of it; [None]
    when the rounds run out.  [choice] on an empty list raises
    [ValueError]. *)
Fixpoint choose_socket (fuel : nat) (world : World.t)
  (start_road_node : string) (sockets : list Socket.t)
  : option (result Socket.t) :=
  match fuel with
  | O => None
  | S fuel' =>
      match sockets with
      | [] => Some (Raise ValueError)
      | first :: _ =>
          let socket :=
            nth (World.choice world (List.length sockets)
                 mod List.length sockets) sockets first in
          if negb (Socket.is_socket_node socket start_road_node)
          then Some (Ok socket)
          else
            let sockets := remove_first socket sockets in
            if (List.length sockets =? 0)%nat then Some (Raise ValueError)
            else choose_socket fuel' world start_road_node sockets
      end
  end.

(** [update(map, current_lane_index, final_road_node)]; the first node of
    the lane index may be [None].  The loop gets one round more than there
    are sockets. *)
Definition update (world : World.t) (self : t) (map : BlockMap.t)
  (current_lane_index : option string * string * nat)
  (final_road_node : option string) : option (result t) :=
  let start_road_node := fst (fst current_lane_index) in
  let self := with_map self (BlockMap.map map) in
  let start_road_node' :=
    match start_road_node with
    | Some node => node
    | None => World.NODE_1 world
    end in
  match final_road_node with
  | Some final_road_node =>
      Some (set_route self start_road_node' final_road_node)
  | None =>
      match World.is_negative_road world start_road_node
              (snd (fst current_lane_index)) with
      | Raise e => Some (Raise e)
      | Ok current_road_negative =>
          match (if current_road_negative
                 then Py.getitem (BlockMap.blocks map) 0
                 else Py.getitem_neg (BlockMap.blocks map) 1) with
          | Raise e => Some (Raise e)
          | Ok sockets =>
              match choose_socket (S (List.length sockets)) world
                      start_road_node' sockets with
              | None => None
              | Some (Raise e) => Some (Raise e)
              | Some (Ok socket) =>
                  let final_road_node :=
                    if current_road_negative
                    then Road.end_node (Socket.negative_road socket)
                    else Road.end_node (Socket.positive_road socket) in
                  Some (set_route self start_road_node' final_road_node)
              end
          end
      end
  end.

(** In a list of sockets, equal identities mean the same socket. *)
Definition sockets_distinct (sockets : list Socket.t) : Prop :=
  forall s s', In s sockets -> In s' sockets ->
               Socket.uid s = Socket.uid s' -> s = s'.

(** A world for the small network: a socket at each end of the route, the
    one at the start first in the list of the block; no road is negative;
    the first element is always drawn. *)
Module ExampleWorld.

Definition entry : Socket.t :=
  Socket.mk 1 (Road.mk "A" "B") (Road.mk "-B" "-A")
    (fun node => String.eqb node "A" || String.eqb node "B")%bool.

Definition exit : Socket.t :=
  Socket.mk 2 (Road.mk "C" "D") (Road.mk "-D" "-C")
    (fun node => String.eqb node "C" || String.eqb node "D")%bool.

Definition block_map : BlockMap.t :=
  BlockMap.mk Example.map [[entry]; [entry; exit]].

Definition world : World.t :=
  World.mk "A" (fun _ _ => Ok false) (fun _ => 0%nat).

End ExampleWorld.

(** ** The observation of the multi-agent roundabout

    [LidarStateObservationMARound] of
    [pgdrive/envs/marl_envs/marl_inout_roundabout.py].  The state
    observation, the vehicle and its lidar are not among the sources; they
    are taken by what the class reads of them.  The samples of
    [np.random.normal] and [np.random.uniform] are inputs, one per
    position. *)

Definition Rleb (a b : R) : bool := if Rle_dec a b then true else false.

(** [numpy.clip] on one element *)
Definition np_clip (x low high : R) : R := Rmin (Rmax x low) high.

(** [f] on every element with its position *)
Definition mapi {A B : Type} (f : nat -> A -> B) (l : list A) : list B :=
  List.map (fun p => f (fst p) (snd p)) (combine (seq 0 (List.length l)) l).

(** [config["lidar"]] *)
Module LidarConfig.
Record t : Type := mk {
  num_lasers : Z;
  distance : R;
  num_others : Z;
  gaussian_noise : R;
  dropout_prob : R
}.
End LidarConfig.

Definition _add_noise_to_cloud_points (normal uniform : nat -> R)
  (points : list R) (gaussian_noise dropout_prob : R) : result (list R) :=
  let points :=
    if Rltb 0 gaussian_noise
    then mapi (fun i p => np_clip (p + normal i) 0 1) points
    else points in
  if Rltb 0 dropout_prob then
    if negb (Rleb dropout_prob 1) then Raise AssertionError else
    Ok (mapi (fun i p => if Rltb (uniform i) dropout_prob then 0 else p)
          points)
  else Ok points.

Section Observation.
Context {V : Type}.

(** What the lidar found around the vehicle: a position and the vehicle
    behind it ([get_vehicle()]). *)
Record Detected : Type := mkDetected {
  detected_position : vec2;
  get_vehicle : V
}.

Record Lidar : Type := mkLidar {
  get_surrounding_vehicles : list Detected;
  get_cloud_points : list R
}.

(** [vehicle.position], [vehicle.lidar] and [state_obs.observe(vehicle)] *)
Variable position : V -> vec2.
Variable lidar : V -> option Lidar.
Variable state_observe : V -> list R.

(** The observation object: its configuration, the shape of the state
    observation space and [state_length]. *)
Record Observation : Type := mkObservation {
  config : LidarConfig.t;
  state_shape : list Z;
  state_length : Z
}.

(** [__init__]: [state_length] is the first dimension of the state
    space. *)
Definition observation_init (cfg : LidarConfig.t) (shape : list Z)
  : result Observation :=
  s0 <- Py.getitem shape 0 ;; Ok (mkObservation cfg shape s0).

(** [observation_space]: the shape of the box, whose bounds are 0 and 1. *)
Definition observation_space (self : Observation) : result (list Z) :=
  let shape := state_shape self in
  if ((0 <? LidarConfig.num_lasers (config self))%Z
      && Rltb 0 (LidarConfig.distance (config self)))%bool
  then
    match shape with
    | [] => Raise IndexError
    | s0 :: rest =>
        Ok ((s0 + (LidarConfig.num_lasers (config self)
                   + LidarConfig.num_others (config self)
                     * state_length self))%Z :: rest)
    end
  else Ok shape.

(** [list.sort(key=key)]: a stable sort that compares keys with [<]. *)
Fixpoint insert_by {A : Type} (key : A -> R) (x : A) (l : list A) : list A :=
  match l with
  | [] => [x]
  | y :: rest =>
      if Rltb (key y) (key x) then y :: insert_by key x rest
      else x :: y :: rest
  end.

Definition sort_by {A : Type} (key : A -> R) (l : list A) : list A :=
  fold_right (insert_by key) [] l.

(** The key of the sort in [observe]: the distance to the vehicle. *)
Definition distance_to (vehicle : V) (v : Detected) : R :=
  norm (fst (position vehicle) - fst (detected_position v))
       (snd (position vehicle) - snd (detected_position v)).

(** [surrounding_vehicles[:num_others]] after the sort and the padding with
    [None]. *)
Definition nearest_others (vehicle : V) (num_others : Z)
  (surrounding : list Detected) : list (option Detected) :=
  firstn (Z.to_nat num_others)
    (List.map Some (sort_by (distance_to vehicle) surrounding)
     ++ repeat None (Z.to_nat num_others)).

Definition observe (normal uniform : nat -> R) (self : Observation)
  (vehicle : V) : result (list R) :=
  let num_others := LidarConfig.num_others (config self) in
  let state := state_observe vehicle in
  other_v_info <-
    match lidar vehicle with
    | None => Ok []
    | Some l =>
        let others :=
          if (0 <? num_others)%Z then
            concat
              (List.map
                 (fun tmp_v : option Detected =>
                    match tmp_v with
                    | Some v => state_observe (get_vehicle v)
                    | None => repeat 0 (Z.to_nat (state_length self))
                    end)
                 (nearest_others vehicle num_others
                    (get_surrounding_vehicles l)))
          else [] in
        noisy <-
          _add_noise_to_cloud_points normal uniform (get_cloud_points l)
            (LidarConfig.gaussian_noise (config self))
            (LidarConfig.dropout_prob (config self)) ;;
        Ok (others ++ noisy)
    end ;;
  Ok (state ++ other_v_info).

End Observation.

(** A vehicle that sees one other vehicle and two lidar points; a state
    observation of three numbers. *)
Module ExampleObservation.

Definition lidar_config : LidarConfig.t := LidarConfig.mk 2 50 2 0 0.

Definition position (v : nat) : vec2 := (0, 0).

Definition lidar (v : nat) : option (@Lidar nat) :=
  Some (mkLidar [mkDetected (3, 4) 7%nat] [1 / 2; 1 / 4]).

Definition state_observe (v : nat) : list R := [0; 1; 1 / 2].

Definition observation : @Observation :=
  mkObservation lidar_config [3%Z] 3%Z.

End ExampleObservation.

(** * Properties *)

(** ** Python lists *)

Lemma contains_In (x : string) (l : list string) :
  Py.contains String.eqb x l = true <-> In x l.
Proof.
  unfold Py.contains. rewrite existsb_exists. split.
  - intros [y [Hy He]]. apply String.eqb_eq in He. now subst.
  - intros H. exists x. split; [assumption | apply String.eqb_refl].
Qed.

Lemma nth_error_removelast {A : Type} (l : list A) (k : nat) :
  nth_error (removelast l) k =
  if (k <? List.length l - 1)%nat then nth_error l k else None.
Proof.
  rewrite removelast_firstn_len, nth_error_firstn.
  now rewrite Nat.sub_1_r.
Qed.

Lemma nth_error_slice_to_last {A : Type} (l : list A) (j m : nat) :
  nth_error (Py.slice_to_last l j) m =
  if (j + m <? List.length l - 1)%nat then nth_error l (j + m) else None.
Proof.
  unfold Py.slice_to_last. now rewrite nth_error_skipn, nth_error_removelast.
Qed.

Lemma find_from_Some (x : string) (l : list string) :
  forall k n,
    Py.find_from String.eqb x l k = Some n ->
    (k <= n)%nat /\ nth_error l (n - k) = Some x /\
    forall m, (m < n - k)%nat -> nth_error l m <> Some x.
Proof.
  induction l as [|y l IH]; intros k n H; simpl in H; [discriminate|].
  destruct (String.eqb x y) eqn:E.
  - injection H as <-. apply String.eqb_eq in E. subst y.
    rewrite Nat.sub_diag.
    split; [lia | split; [reflexivity | intros m Hm; lia]].
  - apply IH in H. destruct H as (Hk & Hn & Hfirst).
    apply String.eqb_neq in E.
    replace (n - k)%nat with (S (n - S k)) by lia.
    split; [lia | split; [exact Hn |]].
    intros [|m] Hm; simpl.
    + intros [= ->]. now apply E.
    + apply Hfirst. lia.
Qed.

Lemma find_from_In (x : string) (l : list string) :
  In x l -> forall k, exists n, Py.find_from String.eqb x l k = Some n.
Proof.
  induction l as [|y l IH]; intros Hin k; [contradiction|]. simpl.
  destruct (String.eqb x y) eqn:E; [now exists k|].
  destruct Hin as [-> | Hin]; [now rewrite String.eqb_refl in E|].
  apply IH. assumption.
Qed.

(** What [cps.index(node, j, -1)] answers when [node] is in [cps[j:-1]]. *)
Lemma index_first (cps : list string) (node : string) (j : nat) :
  In node (Py.slice_to_last cps j) ->
  exists idx,
    Py.index String.eqb cps node j = Ok idx /\
    first_index_from cps node j idx.
Proof.
  intros Hin. destruct (find_from_In _ _ Hin j) as [idx Hidx].
  exists idx. unfold Py.index. rewrite Hidx. split; [reflexivity|].
  apply find_from_Some in Hidx. destruct Hidx as (Hle & Hat & Hfirst).
  rewrite nth_error_slice_to_last in Hat.
  replace (j + (idx - j))%nat with idx in Hat by lia.
  destruct (idx <? List.length cps - 1)%nat eqn:Hlt; [|discriminate].
  apply Nat.ltb_lt in Hlt.
  split; [lia | split; [assumption | split; [assumption |]]].
  intros k Hk Hnode. apply (Hfirst (k - j)%nat); [lia|].
  rewrite nth_error_slice_to_last.
  replace (j + (k - j))%nat with k by lia.
  replace (k <? List.length cps - 1)%nat with true; [assumption|].
  symmetry. apply Nat.ltb_lt. lia.
Qed.

Lemma slice_to_last_incl (cps : list string) (node : string) (j : nat) :
  In node (Py.slice_to_last cps j) -> In node (Py.slice_from cps j).
Proof.
  intros Hin. apply In_nth_error in Hin. destruct Hin as [m Hm].
  rewrite nth_error_slice_to_last in Hm.
  destruct (j + m <? List.length cps - 1)%nat; [|discriminate].
  unfold Py.slice_from. apply nth_error_In with (n := m).
  now rewrite nth_error_skipn.
Qed.

(** ** Comparisons of reals *)

Lemma Rltb_true (a b : R) : a < b -> Rltb a b = true.
Proof. intros H. unfold Rltb. destruct (Rlt_dec a b); [reflexivity | contradiction]. Qed.

Lemma Rltb_false (a b : R) : b <= a -> Rltb a b = false.
Proof. intros H. unfold Rltb. destruct (Rlt_dec a b); [lra | reflexivity]. Qed.

(** ** The checkpoint tracker *)

(** The call changes nothing but the window. *)
Lemma update_target_checkpoints_frame self ego_lane_index long self' b :
  _update_target_checkpoints self ego_lane_index long = Ok (self', b) ->
  checkpoints self' = checkpoints self /\
  map self' = map self /\
  _navi_info self' = _navi_info self /\
  final_road self' = final_road self /\
  final_lane self' = final_lane self.
Proof.
  unfold _update_target_checkpoints.
  destruct (_target_checkpoints_index self) as [[i j]|]; simpl; [|discriminate].
  destruct (i =? j)%nat; [intros [= <- <-]; auto|].
  destruct (checkpoints self) as [cps|] eqn:Hc; simpl; [|discriminate].
  destruct (_ && _); [|intros [= <- <-]; rewrite Hc; auto].
  destruct (negb _); [intros [= <- <-]; rewrite Hc; auto|].
  destruct (Py.index _ _ _ _); simpl; [|discriminate].
  intros [= <- <-]. simpl. auto.
Qed.

Lemma update_target_checkpoints_cases self cps i j ego_lane_index long :
  checkpoints self = Some cps ->
  _target_checkpoints_index self = Some (i, j) ->
  i <> j ->
  let node := lane_index_0 ego_lane_index in
  (In node (Py.slice_to_last cps j) /\ long < CKPT_UPDATE_RANGE /\
   exists idx,
     first_index_from cps node j idx /\
     _update_target_checkpoints self ego_lane_index long =
     Ok (set_target_checkpoints_index self (window_at cps idx), true)) \/
  ((~ In node (Py.slice_to_last cps j) \/ ~ long < CKPT_UPDATE_RANGE) /\
   _update_target_checkpoints self ego_lane_index long = Ok (self, false)).
Proof.
  intros Hc Hw Hij node. unfold _update_target_checkpoints.
  rewrite Hw, Hc. simpl.
  apply Nat.eqb_neq in Hij. rewrite Hij. fold node.
  destruct (Py.contains String.eqb node (Py.slice_to_last cps j)) eqn:Hin.
  - apply contains_In in Hin.
    assert (Hfrom : Py.contains String.eqb node (Py.slice_from cps j) = true)
      by now apply contains_In, slice_to_last_incl.
    rewrite Hfrom. simpl.
    unfold Rltb. destruct (Rlt_dec long CKPT_UPDATE_RANGE) as [Hlt|Hge].
    + left. split; [assumption | split; [assumption|]].
      destruct (index_first cps node j Hin) as [idx [Hidx Hfirst]].
      exists idx. split; [assumption|]. rewrite Hidx. reflexivity.
    + right. split; [now right | reflexivity].
  - right. split.
    + left. intros H. apply contains_In in H. congruence.
    + destruct (_ && _); reflexivity.
Qed.

Lemma window_at_cases (cps : list string) (idx : nat) :
  ((idx + 1)%nat = (List.length cps - 1)%nat -> window_at cps idx = (idx, idx)) /\
  ((idx + 1)%nat <> (List.length cps - 1)%nat ->
   window_at cps idx = (idx, (idx + 1)%nat)).
Proof.
  unfold window_at. split; intros H.
  - apply Nat.eqb_eq in H. now rewrite H.
  - apply Nat.eqb_neq in H. now rewrite H.
Qed.

Lemma tracker_invariant_window (cps : list string) (w : nat * nat) :
  tracker_invariant cps w -> window_invariant cps w /\ (fst w <= snd w)%nat.
Proof. unfold tracker_invariant, window_invariant. intros [[H1 H2]|[H1 H2]]; lia. Qed.

Lemma tracker_invariant_jump (cps : list string) (node : string) (j idx : nat) :
  first_index_from cps node j idx -> tracker_invariant cps (window_at cps idx).
Proof.
  intros (Hj & Hlast & _). unfold tracker_invariant.
  destruct (window_at_cases cps idx) as [He Hn].
  destruct (Nat.eq_dec (idx + 1) (List.length cps - 1)) as [E|E].
  - rewrite (He E). simpl. right. lia.
  - rewrite (Hn E). simpl. left. lia.
Qed.

(** One call from a window that satisfies the invariant: the call returns,
    the route stays, the invariant holds again and no index went back. *)
Lemma update_target_checkpoints_step self cps w ego_lane_index long :
  checkpoints self = Some cps ->
  _target_checkpoints_index self = Some w ->
  tracker_invariant cps w ->
  exists self' b w',
    _update_target_checkpoints self ego_lane_index long = Ok (self', b) /\
    checkpoints self' = Some cps /\
    _target_checkpoints_index self' = Some w' /\
    tracker_invariant cps w' /\
    (fst w <= fst w')%nat /\ (snd w <= snd w')%nat.
Proof.
  intros Hc Hw Hinv. destruct w as [i j].
  destruct (Nat.eq_dec i j) as [->|Hij].
  - exists self, false, (j, j). unfold _update_target_checkpoints.
    rewrite Hw. simpl. rewrite Nat.eqb_refl. repeat split; auto.
  - destruct (update_target_checkpoints_cases self cps i j ego_lane_index long
                Hc Hw Hij) as [(_ & _ & idx & Hfirst & Hup) | [_ Hup]].
    + exists (set_target_checkpoints_index self (window_at cps idx)), true,
        (window_at cps idx).
      split; [assumption|]. split; [assumption|]. split; [reflexivity|].
      split; [eapply tracker_invariant_jump; eassumption|].
      destruct Hfirst as (Hj & _).
      destruct Hinv as [[H1 H2]|[H1 H2]]; simpl in *; [|lia].
      unfold window_at. destruct (_ =? _)%nat; simpl; lia.
    + exists self, false, (i, j). repeat split; auto.
Qed.

Lemma run_ticks_app self ticks more :
  run_ticks self (ticks ++ more) =
  (s <- run_ticks self ticks ;; run_ticks s more).
Proof.
  revert self. induction ticks as [|[li long] ticks IH]; intros self; simpl.
  - reflexivity.
  - destruct (_update_target_checkpoints self li long) as [[s b]|e]; simpl;
      [apply IH | reflexivity].
Qed.

(** Any run from a window that satisfies the invariant. *)
Lemma run_ticks_invariant ticks :
  forall self cps w,
    checkpoints self = Some cps ->
    _target_checkpoints_index self = Some w ->
    tracker_invariant cps w ->
    exists self' w',
      run_ticks self ticks = Ok self' /\
      checkpoints self' = Some cps /\
      _target_checkpoints_index self' = Some w' /\
      tracker_invariant cps w' /\
      (fst w <= fst w')%nat /\ (snd w <= snd w')%nat.
Proof.
  induction ticks as [|[li long] ticks IH]; intros self cps w Hc Hw Hinv.
  - exists self, w. simpl. repeat split; auto.
  - destruct (update_target_checkpoints_step self cps w li long Hc Hw Hinv)
      as (s1 & b & w1 & Hup & Hc1 & Hw1 & Hinv1 & Hi & Hj).
    destruct (IH s1 cps w1 Hc1 Hw1 Hinv1)
      as (s2 & w2 & Hrun & Hc2 & Hw2 & Hinv2 & Hi2 & Hj2).
    exists s2, w2. simpl. rewrite Hup. simpl.
    repeat (split; [assumption|]). lia.
Qed.

Lemma example_set_route :
  set_route Example.fresh "A" "D" = Ok Example.routed.
Proof. reflexivity. Qed.

(** What a successful [set_route] read and what it stored. *)
Lemma set_route_inv self a b self' :
  set_route self a b = Ok self' ->
  exists m cps first_node last2 final_lanes ref_lanes second_node final_lane',
    map self = Some m /\
    RoadNetwork.shortest_path (Map.road_network m) a b = Ok cps /\
    (2 < List.length cps)%nat /\
    Py.getitem_neg cps 2 = Ok last2 /\
    Road_get_lanes (Road.mk last2 b) (Map.road_network m) = Ok final_lanes /\
    Py.getitem_neg final_lanes 1 = Ok final_lane' /\
    Py.getitem cps 0 = Ok first_node /\
    Py.getitem cps 1 = Ok second_node /\
    RoadNetwork.lanes (Map.road_network m) first_node second_node
      = Ok ref_lanes /\
    map self' = Some m /\
    final_road self' = Some (Road.mk last2 b) /\
    checkpoints self' = Some cps /\
    final_lane self' = Some final_lane' /\
    current_ref_lanes self' = Some ref_lanes /\
    current_road self' = Some (Road.mk first_node second_node) /\
    _target_checkpoints_index self' = Some (0, 1)%nat /\
    _navi_info self' = np_fill (_navi_info self) 0 /\
    match _dest_node_path self with
    | None => _dest_node_path self' = None
    | Some _ =>
        exists ref_lane,
          Py.getitem final_lanes 0 = Ok ref_lane /\
          _dest_node_path self' =
          Some (mark_position
                  (lane_end_point ref_lane
                     (later_middle_of (List.length ref_lanes)
                        (Map.lane_width m))))
    end.
Proof.
  unfold set_route. intros H.
  destruct (map self) as [m|] eqn:Hm; simpl in H; [|discriminate].
  destruct (RoadNetwork.shortest_path _ a b) as [cps|] eqn:Hsp; simpl in H;
    [|discriminate].
  destruct (2 <? List.length cps)%nat eqn:Hlen; simpl in H; [|discriminate].
  apply Nat.ltb_lt in Hlen.
  destruct (Py.getitem_neg cps 2) as [last2|] eqn:Hl2; simpl in H;
    [|discriminate].
  destruct (Road_get_lanes _ _) as [final_lanes|] eqn:Hfl; simpl in H;
    [|discriminate].
  destruct (Py.getitem_neg final_lanes 1) as [fl|] eqn:Hlast; simpl in H;
    [|discriminate].
  destruct (Py.getitem cps 0) as [n0|] eqn:H0; simpl in H; [|discriminate].
  destruct (Py.getitem cps 1) as [n1|] eqn:H1; simpl in H; [|discriminate].
  destruct (RoadNetwork.lanes _ n0 n1) as [refs|] eqn:Hrefs; simpl in H;
    [|discriminate].
  exists m, cps, n0, last2, final_lanes, refs, n1, fl.
  do 9 (split; [assumption || reflexivity|]).
  destruct (_dest_node_path self) as [d|].
  - destruct (Py.getitem final_lanes 0) as [ref_lane|] eqn:Hr; simpl in H;
      [|discriminate].
    injection H as <-. simpl. repeat (split; [reflexivity|]).
    exists ref_lane. split; reflexivity.
  - injection H as <-. simpl. repeat (split; [reflexivity|]). reflexivity.
Qed.

(** C1: for a route and a window [[i, j]] that is not terminal, a call of
    [_update_target_checkpoints(ego_lane_index, ego_lane_longitude)] returns
    and
    - changes the window only if [ego_lane_index[0]] occurs in [route[j:]]
      and [ego_lane_longitude < CKPT_UPDATE_RANGE], which is 5;
    - leaves the module as it was if that node does not occur in
      [route[j:-1]];
    - otherwise moves the first index to the first position [idx] of that
      node in [route[j:-1]] (a position in [route]) and the second index to
      [idx + 1], or to [idx] when [idx + 1 = len(route) - 1]. *)
Theorem update_target_checkpoints_transition
  self cps i j ego_lane_index ego_lane_longitude :
  checkpoints self = Some cps ->
  _target_checkpoints_index self = Some (i, j) ->
  i <> j ->
  let node := lane_index_0 ego_lane_index in
  exists self' changed,
    _update_target_checkpoints self ego_lane_index ego_lane_longitude
      = Ok (self', changed) /\
    CKPT_UPDATE_RANGE = 5 /\
    (_target_checkpoints_index self' <> Some (i, j) ->
     In node (Py.slice_from cps j) /\
     ego_lane_longitude < CKPT_UPDATE_RANGE) /\
    (~ In node (Py.slice_to_last cps j) -> self' = self /\ changed = false) /\
    (In node (Py.slice_from cps j) ->
     ego_lane_longitude < CKPT_UPDATE_RANGE ->
     In node (Py.slice_to_last cps j) ->
     exists idx,
       first_index_from cps node j idx /\
       changed = true /\
       checkpoints self' = Some cps /\
       ((idx + 1)%nat = (List.length cps - 1)%nat ->
        _target_checkpoints_index self' = Some (idx, idx)) /\
       ((idx + 1)%nat <> (List.length cps - 1)%nat ->
        _target_checkpoints_index self' = Some (idx, (idx + 1)%nat))).
Proof.
  intros Hc Hw Hij node.
  destruct (update_target_checkpoints_cases self cps i j ego_lane_index
              ego_lane_longitude Hc Hw Hij)
    as [(Hin & Hlt & idx & Hfirst & Hup) | [Hno Hup]]; fold node in Hup |- *.
  - exists (set_target_checkpoints_index self (window_at cps idx)), true.
    split; [exact Hup|]. split; [reflexivity|].
    split; [intros _; split; [now apply slice_to_last_incl | exact Hlt]|].
    split; [intros Hnot; contradiction|].
    intros _ _ _. exists idx. split; [exact Hfirst|]. split; [reflexivity|].
    split; [exact Hc|].
    destruct (window_at_cases cps idx) as [He Hn].
    split; intros E; simpl; [rewrite (He E) | rewrite (Hn E)]; reflexivity.
  - exists self, false.
    split; [exact Hup|]. split; [reflexivity|].
    split; [intros Hchg; congruence|].
    split; [intros _; split; reflexivity|].
    intros _ Hlt Hin. destruct Hno as [Hno|Hno]; contradiction.
Qed.

Lemma update_target_checkpoints_transition_witness :
  exists self' changed,
    _update_target_checkpoints Example.routed ("B", "C", 0%nat)%string 1
      = Ok (self', changed) /\
    changed = true /\
    _target_checkpoints_index self' = Some (1, 2)%nat.
Proof.
  destruct (update_target_checkpoints_transition Example.routed Example.route
              0 1 ("B", "C", 0%nat)%string 1)
    as (self' & changed & Hup & Hrange & _ & _ & Hjump).
  - reflexivity.
  - reflexivity.
  - discriminate.
  - exists self', changed. split; [exact Hup|].
    destruct Hjump as (idx & (Hj & Hlast & Hat & Hfirst) & Hch & _ & _ & Hw).
    + simpl. auto.
    + rewrite Hrange. lra.
    + simpl. auto.
    + split; [exact Hch|].
      assert (idx = 1%nat) as ->.
      { simpl in Hlast.
        destruct idx as [|[|[|idx]]]; simpl in *; try lia; discriminate. }
      apply Hw. simpl. lia.
Defined.

Lemma update_target_checkpoints_terminal self i ego_lane_index long :
  _target_checkpoints_index self = Some (i, i) ->
  _update_target_checkpoints self ego_lane_index long = Ok (self, false).
Proof.
  intros Hw. unfold _update_target_checkpoints. rewrite Hw. simpl.
  now rewrite Nat.eqb_refl.
Qed.

(** C5: once the window is terminal (its two indices are equal), a call of
    [_update_target_checkpoints] returns [False] and leaves the module, and
    so the window, as it was, whatever lane index and longitude it is
    given. *)
Theorem terminal_window_stays self i ego_lane_index ego_lane_longitude :
  _target_checkpoints_index self = Some (i, i) ->
  _update_target_checkpoints self ego_lane_index ego_lane_longitude
    = Ok (self, false).
Proof. apply update_target_checkpoints_terminal. Qed.

Lemma terminal_window_stays_witness :
  _update_target_checkpoints
    (set_target_checkpoints_index Example.routed (2, 2)%nat)
    ("C", "D", 1%nat)%string 0
  = Ok (set_target_checkpoints_index Example.routed (2, 2)%nat, false).
Proof.
  apply (terminal_window_stays
           (set_target_checkpoints_index Example.routed (2, 2)%nat) 2).
  reflexivity.
Defined.

Lemma initial_window_invariant (cps : list string) :
  (2 < List.length cps)%nat -> tracker_invariant cps (0, 1)%nat.
Proof. intros H. left. simpl. lia. Qed.

(** C4: for a route of length > 2 and any sequence of
    [_update_target_checkpoints] calls from the window [[0, 1]], every call
    returns; at any moment of the run the second index is at least the
    first and both are below [len(route) - 1]; and between any moment and
    any later one neither index decreases. *)
Theorem window_never_moves_back self cps ticks more :
  checkpoints self = Some cps ->
  (2 < List.length cps)%nat ->
  _target_checkpoints_index self = Some (0, 1)%nat ->
  exists s1 s2 i1 j1 i2 j2,
    run_ticks self ticks = Ok s1 /\
    run_ticks s1 more = Ok s2 /\
    run_ticks self (ticks ++ more) = Ok s2 /\
    _target_checkpoints_index s1 = Some (i1, j1) /\
    _target_checkpoints_index s2 = Some (i2, j2) /\
    (i1 <= j1)%nat /\
    (i1 < List.length cps - 1)%nat /\ (j1 < List.length cps - 1)%nat /\
    (i1 <= i2)%nat /\ (j1 <= j2)%nat.
Proof.
  intros Hc Hlen Hw.
  destruct (run_ticks_invariant ticks self cps (0, 1)%nat Hc Hw
              (initial_window_invariant cps Hlen))
    as (s1 & [i1 j1] & Hrun1 & Hc1 & Hw1 & Hinv1 & _).
  destruct (run_ticks_invariant more s1 cps (i1, j1) Hc1 Hw1 Hinv1)
    as (s2 & [i2 j2] & Hrun2 & _ & Hw2 & _ & Hi & Hj).
  exists s1, s2, i1, j1, i2, j2.
  split; [exact Hrun1|]. split; [exact Hrun2|].
  split; [rewrite run_ticks_app, Hrun1; exact Hrun2|].
  split; [exact Hw1|]. split; [exact Hw2|].
  apply tracker_invariant_window in Hinv1.
  unfold window_invariant in Hinv1. simpl in *. lia.
Qed.

Lemma window_never_moves_back_witness :
  exists s1 s2 i1 j1 i2 j2,
    run_ticks Example.routed [(("B", "C", 0%nat)%string, 1)] = Ok s1 /\
    run_ticks s1 [(("A", "B", 0%nat)%string, 0)] = Ok s2 /\
    run_ticks Example.routed
      ([(("B", "C", 0%nat)%string, 1)] ++ [(("A", "B", 0%nat)%string, 0)])
      = Ok s2 /\
    _target_checkpoints_index s1 = Some (i1, j1) /\
    _target_checkpoints_index s2 = Some (i2, j2) /\
    (i1 <= j1)%nat /\
    (i1 < List.length Example.route - 1)%nat /\
    (j1 < List.length Example.route - 1)%nat /\
    (i1 <= i2)%nat /\ (j1 <= j2)%nat.
Proof.
  apply (window_never_moves_back Example.routed Example.route).
  - reflexivity.
  - simpl. lia.
  - reflexivity.
Defined.

(** C9: after [set_route] and after every later call of
    [_update_target_checkpoints], the second index of the window is the
    first or the first plus one, and the two are equal only when the first
    is [len(route) - 2]: the window collapses on the last road segment and
    nowhere else. *)
Theorem window_collapses_only_at_end self0 a b self ticks :
  set_route self0 a b = Ok self ->
  exists cps s i j,
    checkpoints self = Some cps /\
    run_ticks self ticks = Ok s /\
    checkpoints s = Some cps /\
    _target_checkpoints_index s = Some (i, j) /\
    (j = i \/ j = (i + 1)%nat) /\
    (i = j -> i = (List.length cps - 2)%nat).
Proof.
  intros Hroute. apply set_route_inv in Hroute.
  destruct Hroute as (m & cps & n0 & l2 & fls & refs & n1 & fl & _ & _ & Hlen
                      & _ & _ & _ & _ & _ & _ & _ & _ & Hc & _ & _ & _ & Hw & _).
  destruct (run_ticks_invariant ticks self cps (0, 1)%nat Hc Hw
              (initial_window_invariant cps Hlen))
    as (s & [i j] & Hrun & Hcs & Hws & Hinv & _).
  exists cps, s, i, j. repeat (split; [assumption|]).
  unfold tracker_invariant in Hinv. simpl in Hinv. lia.
Qed.

Lemma window_collapses_only_at_end_witness :
  exists cps s i j,
    checkpoints Example.routed = Some cps /\
    run_ticks Example.routed
      [(("B", "C", 0%nat)%string, 1); (("C", "D", 0%nat)%string, 2)] = Ok s /\
    checkpoints s = Some cps /\
    _target_checkpoints_index s = Some (i, j) /\
    (j = i \/ j = (i + 1)%nat) /\
    (i = j -> i = (List.length cps - 2)%nat).
Proof.
  apply (window_collapses_only_at_end Example.fresh "A" "D").
  reflexivity.
Defined.

(** The scenario of a route of three nodes: at the start of the first
    segment the window stays [[0, 1]]; on entering the second segment,
    within the update range, it becomes [[1, 1]], terminal. *)
Example three_node_route :
  exists s0 s1,
    set_route Example.fresh "B" "D" = Ok s0 /\
    checkpoints s0 = Some ["B"; "C"; "D"]%string /\
    _target_checkpoints_index s0 = Some (0, 1)%nat /\
    _update_target_checkpoints s0 ("B", "C", 0%nat)%string 0 = Ok (s0, false) /\
    _update_target_checkpoints s0 ("C", "D", 0%nat)%string 1 = Ok (s1, true) /\
    _target_checkpoints_index s1 = Some (1, 1)%nat.
Proof.
  do 2 eexists. split; [reflexivity|]. split; [reflexivity|].
  split; [reflexivity|]. split; [reflexivity|].
  unfold _update_target_checkpoints. simpl.
  rewrite Rltb_true by (unfold CKPT_UPDATE_RANGE; lra).
  simpl. split; reflexivity.
Qed.

Lemma nth_error_in_bounds {A : Type} (l : list A) (k : nat) :
  (k < List.length l)%nat -> exists x, nth_error l k = Some x.
Proof.
  intros Hk. destruct (nth_error l k) eqn:E; [eauto|].
  apply nth_error_None in E. lia.
Qed.

(** A call keeps the plain window invariant too. *)
Lemma update_target_checkpoints_window self cps w ego_lane_index long :
  checkpoints self = Some cps ->
  _target_checkpoints_index self = Some w ->
  window_invariant cps w ->
  exists self' b w',
    _update_target_checkpoints self ego_lane_index long = Ok (self', b) /\
    checkpoints self' = Some cps /\
    _target_checkpoints_index self' = Some w' /\
    window_invariant cps w'.
Proof.
  intros Hc Hw Hinv. destruct w as [i j].
  destruct (Nat.eq_dec i j) as [->|Hij].
  - exists self, false, (j, j).
    rewrite (update_target_checkpoints_terminal self j); auto.
  - destruct (update_target_checkpoints_cases self cps i j ego_lane_index long
                Hc Hw Hij) as [(_ & _ & idx & Hfirst & Hup) | [_ Hup]].
    + exists (set_target_checkpoints_index self (window_at cps idx)), true,
        (window_at cps idx).
      repeat (split; [assumption || reflexivity|]).
      apply tracker_invariant_window.
      eapply tracker_invariant_jump; eassumption.
    + exists self, false, (i, j). auto.
Qed.

(** C10: when the route is longer than 2 and the window satisfies its
    invariant (both indices below [len(route) - 1], the second the first or
    the first plus one), the four reads of [checkpoints] that
    [update_navigation_localization] makes, at [window[0]], [window[0] + 1],
    [window[1]] and [window[1] + 1], are all in bounds: none raises
    [IndexError], the terminal window included.  The same holds for the
    window those reads see, the one left by the call of
    [_update_target_checkpoints] just before them. *)
Theorem target_roads_in_bounds (cps : list string) (w : nat * nat) :
  (2 < List.length cps)%nat ->
  window_invariant cps w ->
  (exists a b c d,
      target_roads cps w = Ok (a, b, c, d) /\
      nth_error cps (fst w) = Some a /\
      nth_error cps (fst w + 1) = Some b /\
      nth_error cps (snd w) = Some c /\
      nth_error cps (snd w + 1) = Some d) /\
  (forall self ego_lane_index long,
      checkpoints self = Some cps ->
      _target_checkpoints_index self = Some w ->
      exists self' changed w',
        _update_target_checkpoints self ego_lane_index long
          = Ok (self', changed) /\
        checkpoints self' = Some cps /\
        _target_checkpoints_index self' = Some w' /\
        window_invariant cps w' /\
        returns (target_roads cps w')).
Proof.
  assert (Hreads : forall w0, window_invariant cps w0 ->
            exists a b c d,
              target_roads cps w0 = Ok (a, b, c, d) /\
              nth_error cps (fst w0) = Some a /\
              nth_error cps (fst w0 + 1) = Some b /\
              nth_error cps (snd w0) = Some c /\
              nth_error cps (snd w0 + 1) = Some d).
  { intros w0 (Hi & Hj & _).
    destruct (nth_error_in_bounds cps (fst w0)) as [a Ha]; [lia|].
    destruct (nth_error_in_bounds cps (fst w0 + 1)%nat) as [b Hb]; [lia|].
    destruct (nth_error_in_bounds cps (snd w0)) as [c Hc]; [lia|].
    destruct (nth_error_in_bounds cps (snd w0 + 1)%nat) as [d Hd]; [lia|].
    exists a, b, c, d. unfold target_roads, Py.getitem.
    rewrite Ha, Hb, Hc, Hd. simpl. auto. }
  intros Hlen Hinv. split; [now apply Hreads|].
  intros self li long Hc Hw.
  destruct (update_target_checkpoints_window self cps w li long Hc Hw Hinv)
    as (self' & b & w' & Hup & Hc' & Hw' & Hinv').
  exists self', b, w'. repeat (split; [assumption|]).
  destruct (Hreads w' Hinv') as (x1 & x2 & x3 & x4 & Hok & _).
  now exists (x1, x2, x3, x4).
Qed.

Lemma target_roads_in_bounds_witness :
  target_roads Example.route (2, 2)%nat = Ok ("C", "D", "C", "D")%string /\
  exists self' changed w',
    _update_target_checkpoints Example.routed ("B", "C", 0%nat)%string 1
      = Ok (self', changed) /\
    _target_checkpoints_index self' = Some w' /\
    returns (target_roads Example.route w').
Proof.
  split.
  - destruct (target_roads_in_bounds Example.route (2, 2)%nat)
      as [(a & b & c & d & Hok & Ha & Hb & Hc & Hd) _].
    + simpl. lia.
    + unfold window_invariant. simpl. lia.
    + simpl in Ha, Hb, Hc, Hd.
      injection Ha as <-. injection Hb as <-.
      injection Hc as <-. injection Hd as <-. exact Hok.
  - destruct (target_roads_in_bounds Example.route (0, 1)%nat)
      as [_ Hnext].
    + simpl. lia.
    + unfold window_invariant. simpl. lia.
    + destruct (Hnext Example.routed ("B", "C", 0%nat)%string 1)
        as (self' & changed & w' & Hup & _ & Hw & _ & Hret);
        [reflexivity | reflexivity |].
      exists self', changed, w'. auto.
Defined.

(** ** The lane localizer *)

(** C6: for every list of ray-cast hits, empty or not, [get_current_lane]
    returns the [(lane, lane_index)] of the first hit whose lane is in
    [current_ref_lanes]; when no hit has its lane there, those of the first
    hit; and [(None, None)] when there is no hit. *)
Theorem get_current_lane_prefers_route self refs possible_lanes :
  current_ref_lanes self = Some refs ->
  (forall before h after,
      possible_lanes = before ++ h :: after ->
      (forall x, In x before ->
                 Py.contains Lane.eqb (fst (fst x)) refs = false) ->
      Py.contains Lane.eqb (fst (fst h)) refs = true ->
      get_current_lane self possible_lanes = Ok (Some (fst h))) /\
  (forall h rest,
      possible_lanes = h :: rest ->
      (forall x, In x possible_lanes ->
                 Py.contains Lane.eqb (fst (fst x)) refs = false) ->
      get_current_lane self possible_lanes = Ok (Some (fst h))) /\
  (possible_lanes = [] -> get_current_lane self possible_lanes = Ok None).
Proof.
  intros Hrefs.
  assert (Hskip : forall before rest,
             (forall x : hit, In x before ->
                 Py.contains Lane.eqb (fst (fst x)) refs = false) ->
             get_current_lane_loop self (before ++ rest) =
             get_current_lane_loop self rest).
  { induction before as [|[[l i] d] before IH]; intros rest Hb; [reflexivity|].
    simpl. rewrite Hrefs. simpl.
    pose proof (Hb (l, i, d) (or_introl eq_refl)) as Hh. simpl in Hh.
    rewrite Hh. apply IH.
    intros x Hx. apply Hb. now right. }
  split; [|split].
  - intros before [[l i] d] after -> Hb Hh. unfold get_current_lane.
    rewrite (Hskip before _ Hb). simpl in *. rewrite Hrefs. simpl.
    now rewrite Hh.
  - intros [[l i] d] rest -> Hall. unfold get_current_lane.
    assert (E : get_current_lane_loop self ((l, i, d) :: rest) = Ok None).
    { rewrite <- (app_nil_r ((l, i, d) :: rest)).
      exact (Hskip ((l, i, d) :: rest) [] Hall). }
    rewrite E. reflexivity.
  - intros ->. reflexivity.
Qed.

Lemma get_current_lane_prefers_route_witness :
  get_current_lane Example.routed
    [ (Example.bc0, ("B", "C", 0%nat)%string, 2);
      (Example.ab1, ("A", "B", 1%nat)%string, 3);
      (Example.ab0, ("A", "B", 0%nat)%string, 4) ]
  = Ok (Some (Example.ab1, ("A", "B", 1%nat)%string)).
Proof.
  destruct (get_current_lane_prefers_route Example.routed
              [Example.ab0; Example.ab1]
              [ (Example.bc0, ("B", "C", 0%nat)%string, 2);
                (Example.ab1, ("A", "B", 1%nat)%string, 3);
                (Example.ab0, ("A", "B", 0%nat)%string, 4) ])
    as [Hfirst _].
  - reflexivity.
  - apply (Hfirst [(Example.bc0, ("B", "C", 0%nat)%string, 2)]
             (Example.ab1, ("A", "B", 1%nat)%string, 3)
             [(Example.ab0, ("A", "B", 0%nat)%string, 4)]).
    + reflexivity.
    + intros x [<-|[]]. reflexivity.
    + reflexivity.
Defined.

(** ** The navigation feature encoder *)

Lemma norm_nonneg (x y : R) : 0 <= norm x y.
Proof. apply sqrt_pos. Qed.

Lemma norm_sqr (x y : R) : norm x y * norm x y = x * x + y * y.
Proof. unfold norm. apply sqrt_sqrt. nra. Qed.

Lemma norm_eq (x y d : R) : 0 <= d -> d * d = x * x + y * y -> norm x y = d.
Proof. intros Hd H. unfold norm. apply sqrt_lem_1; [nra | exact Hd | exact H]. Qed.

(** The vector scaled to length [d]. *)
Lemma norm_rescaled (x y d : R) :
  0 < norm x y -> 0 <= d ->
  norm (x / norm x y * d) (y / norm x y * d) = d.
Proof.
  intros Hn Hd. apply norm_eq; [exact Hd|].
  pose proof (norm_sqr x y) as Hs.
  set (n := norm x y) in *.
  assert (Hn0 : n <> 0) by lra.
  replace (x / n * d * (x / n * d) + y / n * d * (y / n * d))
    with ((x * x + y * y) / (n * n) * (d * d)) by (field; exact Hn0).
  rewrite <- Hs. field. exact Hn0.
Qed.




Ltac bind_inv H :=
  match type of H with
  | bind ?c _ = Ok _ =>
      let E := fresh "E" in
      destruct c eqn:E; simpl in H; [|discriminate H]
  | (if ?b then Raise _ else _) = Ok _ =>
      let E := fresh "E" in
      destruct b eqn:E; simpl in H; [discriminate H|]
  | (if ?b then _ else Raise _) = Ok _ =>
      let E := fresh "E" in
      destruct b eqn:E; simpl in H; [|discriminate H]
  end.

Lemma clip_unit (a : R) : in_unit_interval (clip a 0 1).
Proof.
  unfold in_unit_interval, clip. split.
  - apply Rmin_glb; [apply Rmax_r | lra].
  - apply Rmin_r.
Qed.

Lemma encode_unit space p s b d a :
  Forall in_unit_interval (encode space p s b d a).
Proof. unfold encode. repeat (constructor; [apply clip_unit|]). constructor. Qed.

(** What a successful [_get_info_for_checkpoint] computed. *)
Lemma get_info_for_checkpoint_inv space self lanes_id lanes ego info h cp :
  _get_info_for_checkpoint space self lanes_id lanes ego = Ok (info, h, cp) ->
  exists ref_lane lane_num lane_width bendradius dir angle,
    Py.getitem lanes 0 = Ok ref_lane /\
    get_current_lane_num self = Ok lane_num /\
    get_current_lane_width self = Ok lane_width /\
    cp = lane_end_point ref_lane (later_middle_of lane_num lane_width) /\
    bend_of space ref_lane lane_num lane_width = Ok (bendradius, dir, angle) /\
    info =
    encode space
      (fst (Vehicle.projection ego (dir_vec_to cp (Vehicle.position ego))))
      (snd (Vehicle.projection ego (dir_vec_to cp (Vehicle.position ego))))
      bendradius dir angle.
Proof.
  unfold _get_info_for_checkpoint. intros H.
  bind_inv H. bind_inv H. bind_inv H.
  destruct (Vehicle.projection ego _) as [ph ps] eqn:Hp.
  bind_inv H. destruct a2 as [[b d] an]. injection H as <- <- <-.
  exists a, a0, a1, b, d, an. rewrite Hp. simpl. auto 10.
Qed.

(** C8: for a circular reference lane [_get_info_for_checkpoint] takes
    [bendradius = radius / (max_curve_radius + lane_count * lane_width)],
    [dir] the turn sense of the lane and [angle = end_phase - start_phase]
    for turn sense 1, [start_phase - end_phase] for turn sense -1; so for
    turn sense 1 the encoded angle is
    [clip((rad2deg(end_phase - start_phase) / max_angle + 1) / 2, 0, 1)].
    For a lane that is not circular, [bendradius], [dir] and [angle] are all
    zero. *)
Theorem bend_encoding space self lanes_id ref_lane rest ego_vehicle refs m :
  current_ref_lanes self = Some refs ->
  map self = Some m ->
  let lane_count := List.length refs in
  let lane_width := Map.lane_width m in
  let denom := CurveSpace.radius_max space + INR lane_count * lane_width in
  (forall c,
      Lane.circular ref_lane = Some c ->
      denom <> 0 ->
      bend_of space ref_lane lane_count lane_width =
      Ok (CircularLane.radius c / denom, IZR (CircularLane.direction c),
          arc_angle c) /\
      (CircularLane.direction c = 1%Z ->
       arc_angle c = CircularLane.end_phase c - CircularLane.start_phase c) /\
      (CircularLane.direction c = (-1)%Z ->
       arc_angle c = CircularLane.start_phase c - CircularLane.end_phase c) /\
      exists proj_heading_term proj_side_term lanes_heading check_point angle_term,
        _get_info_for_checkpoint space self lanes_id (ref_lane :: rest)
          ego_vehicle =
        Ok ([ proj_heading_term; proj_side_term;
              clip (CircularLane.radius c / denom) 0 1;
              clip ((IZR (CircularLane.direction c) + 1) / 2) 0 1;
              angle_term ],
            lanes_heading, check_point) /\
        angle_term =
        clip ((rad2deg (arc_angle c) / CurveSpace.angle_max space + 1) / 2)
          0 1 /\
        (CircularLane.direction c = 1%Z ->
         angle_term =
         clip ((rad2deg (CircularLane.end_phase c - CircularLane.start_phase c)
                / CurveSpace.angle_max space + 1) / 2) 0 1)) /\
  (Lane.circular ref_lane = None ->
   bend_of space ref_lane lane_count lane_width = Ok (0, 0, 0) /\
   exists proj_heading_term proj_side_term lanes_heading check_point,
     _get_info_for_checkpoint space self lanes_id (ref_lane :: rest)
       ego_vehicle =
     Ok ([ proj_heading_term; proj_side_term;
           clip 0 0 1;
           clip ((0 + 1) / 2) 0 1;
           clip ((rad2deg 0 / CurveSpace.angle_max space + 1) / 2) 0 1 ],
         lanes_heading, check_point)).
Proof.
  intros Hrefs Hm lane_count lane_width denom. split.
  - intros c Hc Hden.
    assert (Hbend : bend_of space ref_lane lane_count lane_width =
                    Ok (CircularLane.radius c / denom,
                        IZR (CircularLane.direction c), arc_angle c)).
    { unfold bend_of. rewrite Hc. fold denom.
      destruct (Req_dec_T denom 0); [contradiction | reflexivity]. }
    assert (Hone : CircularLane.direction c = 1%Z ->
                   arc_angle c =
                   CircularLane.end_phase c - CircularLane.start_phase c).
    { intros E. unfold arc_angle. now rewrite E. }
    split; [exact Hbend|]. split; [exact Hone|].
    split; [intros E; unfold arc_angle; now rewrite E|].
    unfold _get_info_for_checkpoint, get_current_lane_num,
      get_current_lane_width.
    rewrite Hrefs, Hm. simpl.
    fold lane_count lane_width.
    destruct (Vehicle.projection ego_vehicle _) as [ph ps].
    rewrite Hbend. simpl. unfold encode.
    do 5 eexists. split; [reflexivity|]. split; [reflexivity|].
    intros E. now rewrite (Hone E).
  - intros Hc.
    assert (Hbend : bend_of space ref_lane lane_count lane_width
                    = Ok (0, 0, 0)).
    { unfold bend_of. now rewrite Hc. }
    split; [exact Hbend|].
    unfold _get_info_for_checkpoint, get_current_lane_num,
      get_current_lane_width.
    rewrite Hrefs, Hm. simpl.
    fold lane_count lane_width.
    destruct (Vehicle.projection ego_vehicle _) as [ph ps].
    rewrite Hbend. simpl. unfold encode.
    do 4 eexists. reflexivity.
Qed.

Lemma bend_encoding_witness :
  bend_of Example.space Example.bc0 2 (7 / 2) =
  Ok (30 / (60 + INR 2 * (7 / 2)), IZR 1, PI / 2 - 0).
Proof.
  destruct (bend_encoding Example.space Example.routed 1 Example.bc0
              [Example.bc1] (Example.vehicle_at 1 0)
              [Example.ab0; Example.ab1] Example.map)
    as [Hcircular _].
  - reflexivity.
  - reflexivity.
  - destruct (Hcircular Example.quarter_turn) as [Hbend _].
    + reflexivity.
    + simpl. lra.
    + exact Hbend.
Defined.

(** What a successful [update_navigation_localization] left in
    [_navi_info]: the five scalars [_get_info_for_checkpoint] gave for the
    first target road, then those it gave for the second. *)
Lemma update_navigation_localization_navi
  space self ego_vehicle possible_lanes self' ego_vehicle' r :
  update_navigation_localization space self ego_vehicle possible_lanes
    = Ok (self', ego_vehicle', r) ->
  exists self1 lanes1 lanes2 ego1 info1 h1 cp1 info2 h2 cp2,
    _get_info_for_checkpoint space self1 0 lanes1 ego1 = Ok (info1, h1, cp1) /\
    _get_info_for_checkpoint space self1 1 lanes2 ego1 = Ok (info2, h2, cp2) /\
    List.length info1 = 5%nat /\ List.length info2 = 5%nat /\
    _navi_info self' = info1 ++ info2.
Proof.
  unfold update_navigation_localization. intros H.
  bind_inv H. bind_inv H. destruct a0 as [[lane lane_index] ego1].
  bind_inv H. destruct a0 as [self1 changed].
  bind_inv H. bind_inv H. bind_inv H. bind_inv H.
  destruct a2 as [[[n1 n2] n3] n4].
  bind_inv H. bind_inv H. bind_inv H. bind_inv H.
  destruct a5 as [[info1 h1] cp1].
  bind_inv H. bind_inv H. destruct a6 as [[info2 h2] cp2].
  bind_inv H. bind_inv H. injection H as <- _ _.
  do 10 eexists. split; [exact E9|]. split; [exact E11|].
  apply get_info_for_checkpoint_inv in E9, E11.
  destruct E9 as (? & ? & ? & b1 & d1 & an1 & _ & _ & _ & _ & _ & ->).
  destruct E11 as (? & ? & ? & b2 & d2 & an2 & _ & _ & _ & _ & _ & ->).
  unfold np_set_head in E10. bind_inv E10. injection E10 as <-.
  unfold np_set_tail in E12. bind_inv E12. injection E12 as <-.
  split; [reflexivity|]. split; [reflexivity|]. reflexivity.
Qed.

Lemma zeros_unit (n : nat) : Forall in_unit_interval (np_zeros n).
Proof.
  induction n; simpl; constructor; [unfold in_unit_interval; lra | assumption].
Qed.

Lemma fill_zero_unit (a : list R) : Forall in_unit_interval (np_fill a 0).
Proof.
  induction a; simpl; constructor; [unfold in_unit_interval; lra | assumption].
Qed.

(** [_get_info_for_checkpoint] returns on a road with a lane, once the
    module has its map and its reference lanes, unless the bend radius is
    divided by zero. *)
Lemma get_info_for_checkpoint_returns
  space self lanes_id ref_lane rest ego_vehicle refs m :
  current_ref_lanes self = Some refs ->
  map self = Some m ->
  (Lane.circular ref_lane <> None ->
   CurveSpace.radius_max space + INR (List.length refs) * Map.lane_width m
   <> 0) ->
  exists info h cp,
    _get_info_for_checkpoint space self lanes_id (ref_lane :: rest) ego_vehicle
      = Ok (info, h, cp) /\
    List.length info = 5%nat.
Proof.
  intros Hrefs Hm Hden.
  unfold _get_info_for_checkpoint, get_current_lane_num,
    get_current_lane_width.
  rewrite Hrefs, Hm. simpl.
  destruct (Vehicle.projection ego_vehicle _) as [ph ps].
  unfold bend_of. destruct (Lane.circular ref_lane) as [c|].
  - destruct (Req_dec_T _ 0) as [E|_]; [exfalso; now apply Hden|].
    simpl. eauto.
  - simpl. eauto.
Qed.

Lemma example_update_returns :
  exists s v r,
    update_navigation_localization Example.space Example.routed
      (Example.vehicle_at 1 0)
      [(Example.ab0, ("A", "B", 0%nat)%string, 0)]
    = Ok (s, v, r).
Proof.
  unfold update_navigation_localization. simpl.
  destruct (get_info_for_checkpoint_returns Example.space
              (set_navigation Example.routed [Example.ab0; Example.ab1]
                 (Road.mk "A" "B") [0; 0; 0; 0; 0; 0; 0; 0; 0; 0] None)
              0 Example.ab0 [Example.ab1] (Example.vehicle_at 1 0)
              [Example.ab0; Example.ab1] Example.map)
    as (info1 & h1 & cp1 & E1 & L1);
    [reflexivity | reflexivity | intros H; now elim H |].
  destruct (get_info_for_checkpoint_returns Example.space
              (set_navigation Example.routed [Example.ab0; Example.ab1]
                 (Road.mk "A" "B") [0; 0; 0; 0; 0; 0; 0; 0; 0; 0] None)
              1 Example.bc0 [Example.bc1] (Example.vehicle_at 1 0)
              [Example.ab0; Example.ab1] Example.map)
    as (info2 & h2 & cp2 & E2 & L2);
    [reflexivity | reflexivity | intros _; simpl; lra |].
  rewrite E1. simpl. unfold np_set_head. rewrite L1. simpl.
  rewrite E2. simpl. unfold np_set_tail.
  rewrite length_app, L1, L2. simpl. eauto.
Qed.

(** ** The route planner *)

Lemma roads_of_first (cps : list string) (a b : string) :
  nth_error cps 0 = Some a -> nth_error cps 1 = Some b ->
  In (a, b) (roads_of cps).
Proof.
  destruct cps as [|x [|y rest]]; simpl; try discriminate.
  intros [= ->] [= ->]. now left.
Qed.

Lemma roads_of_last (cps : list string) (d x : string) :
  (2 <= List.length cps)%nat ->
  nth_error cps (List.length cps - 2) = Some x ->
  In (x, last cps d) (roads_of cps).
Proof.
  induction cps as [|a rest IH]; intros Hlen Hx; [simpl in Hlen; lia|].
  destruct rest as [|b [|c rest]].
  - simpl in Hlen. lia.
  - simpl in Hx. injection Hx as ->. simpl. now left.
  - change (roads_of (a :: b :: c :: rest))
      with ((a, b) :: roads_of (b :: c :: rest)).
    change (last (a :: b :: c :: rest) d) with (last (b :: c :: rest) d).
    right. apply IH; [simpl; lia|].
    replace (List.length (a :: b :: c :: rest) - 2)%nat
      with (S (List.length (b :: c :: rest) - 2)) in Hx by (simpl; lia).
    exact Hx.
Qed.

Lemma getitem_neg_in_bounds {A : Type} (l : list A) (k : nat) :
  (1 <= k <= List.length l)%nat ->
  exists x,
    Py.getitem_neg l k = Ok x /\ nth_error l (List.length l - k) = Some x.
Proof.
  intros Hk. destruct (nth_error_in_bounds l (List.length l - k)) as [x Hx];
    [lia|].
  exists x. split; [|exact Hx]. unfold Py.getitem_neg, Py.getitem.
  replace (k <=? List.length l)%nat with true
    by (symmetry; apply Nat.leb_le; lia).
  now rewrite Hx.
Qed.

(** On a network that answers with paths of its own, a path of more than
    two nodes is all [set_route] needs. *)
Lemma set_route_returns self m a b cps :
  map self = Some m ->
  sound_shortest_path (Map.road_network m) ->
  RoadNetwork.shortest_path (Map.road_network m) a b = Ok cps ->
  (2 < List.length cps)%nat ->
  returns (set_route self a b).
Proof.
  intros Hm Hsound Hsp Hlen.
  destruct (Hsound a b cps Hsp) as [Hroads Hend].
  assert (Hne : cps <> []) by (intros ->; simpl in Hlen; lia).
  specialize (Hend Hne).
  rewrite Forall_forall in Hroads.
  destruct (getitem_neg_in_bounds cps 2) as (x & Hgx & Hx); [lia|].
  destruct (nth_error_in_bounds cps 0) as [n0 H0]; [lia|].
  destruct (nth_error_in_bounds cps 1) as [n1 H1]; [lia|].
  destruct (Hroads (x, last cps b)) as (fl0 & fls & Hfinal);
    [apply roads_of_last; [lia | exact Hx]|].
  destruct (Hroads (n0, n1)) as (r0 & rs & Hrefs);
    [now apply roads_of_first|].
  simpl in Hfinal, Hrefs. rewrite Hend in Hfinal.
  destruct (getitem_neg_in_bounds (fl0 :: fls) 1) as (fl & Hgfl & _);
    [simpl; lia|].
  apply Nat.ltb_lt in Hlen.
  unfold set_route, Road_get_lanes.
  rewrite Hm. cbn [bind not_none]. rewrite Hsp. cbn [bind].
  rewrite Hlen. cbn [negb]. rewrite Hgx. cbn [bind].
  cbn [Road.start_node Road.end_node]. rewrite Hfinal. cbn [bind].
  rewrite Hgfl. cbn [bind].
  unfold Py.getitem at 1 2. rewrite H0, H1. cbn [bind not_none].
  rewrite Hrefs. cbn [bind].
  destruct (_dest_node_path self); simpl; eexists; reflexivity.
Qed.

Lemma example_network_sound : sound_shortest_path Example.network.
Proof.
  intros a b cps. simpl. unfold Example.shortest_path.
  assert (Hroad : forall x y ls,
             RoadNetwork.lanes Example.network x y = Ok ls ->
             ls <> [] -> carries_lanes Example.network (x, y)).
  { intros x y [|l ls] H Hne; [contradiction|]. now exists l, ls. }
  destruct (String.eqb a "A" && String.eqb b "D")%bool eqn:E1;
    [|destruct (String.eqb a "B" && String.eqb b "D")%bool eqn:E2;
      [|destruct (String.eqb a "C" && String.eqb b "D")%bool eqn:E3]];
    try (apply andb_true_iff in E1; destruct E1 as [_ Eb]);
    try (apply andb_true_iff in E2; destruct E2 as [_ Eb]);
    try (apply andb_true_iff in E3; destruct E3 as [_ Eb]);
    try (apply String.eqb_eq in Eb; subst b);
    intros [= <-]; (split; [|intros _; reflexivity]);
    repeat (constructor;
            [eapply Hroad; [reflexivity | discriminate]|]);
    constructor.
Qed.

Lemma fill_zero_all (a : list R) : Forall (fun x => x = 0) (np_fill a 0).
Proof. induction a; simpl; constructor; [reflexivity | assumption]. Qed.

(** C3, as the code has it: on a road network whose [shortest_path] answers
    with paths of its own (along roads of the graph, each with at least one
    lane, ending at the node asked for), [set_route(start_road_node,
    end_road_node)] raises if and only if [shortest_path] raises or returns
    fewer than 3 nodes.  On success it stores the path as [checkpoints],
    sets the window to [[0, 1]], fills the feature vector with zeros, sets
    [final_road] to the road [(route[-2], end_road_node)] and [final_lane]
    to the last lane of that road.  The destination mark, when the module
    has one, is put at the end of the first lane of that road
    ([final_lanes[0]]), not of [final_lane]. *)
Theorem set_route_outcome self m start_road_node end_road_node :
  map self = Some m ->
  sound_shortest_path (Map.road_network m) ->
  let path :=
    RoadNetwork.shortest_path (Map.road_network m)
      start_road_node end_road_node in
  (raises (set_route self start_road_node end_road_node) <->
   raises path \/ exists cps, path = Ok cps /\ (List.length cps < 3)%nat) /\
  (forall self',
      set_route self start_road_node end_road_node = Ok self' ->
      exists cps last2 final_lanes last_lane ref_lanes,
        path = Ok cps /\
        (3 <= List.length cps)%nat /\
        last cps end_road_node = end_road_node /\
        checkpoints self' = Some cps /\
        _target_checkpoints_index self' = Some (0, 1)%nat /\
        List.length (get_navi_info self') = List.length (get_navi_info self) /\
        Forall (fun x => x = 0) (get_navi_info self') /\
        Py.getitem_neg cps 2 = Ok last2 /\
        final_road self' = Some (Road.mk last2 end_road_node) /\
        Road_get_lanes (Road.mk last2 end_road_node) (Map.road_network m)
          = Ok final_lanes /\
        Py.getitem_neg final_lanes 1 = Ok last_lane /\
        final_lane self' = Some last_lane /\
        current_ref_lanes self' = Some ref_lanes /\
        match _dest_node_path self with
        | None => _dest_node_path self' = None
        | Some _ =>
            exists first_lane,
              Py.getitem final_lanes 0 = Ok first_lane /\
              _dest_node_path self' =
              Some (mark_position
                      (lane_end_point first_lane
                         (later_middle_of (List.length ref_lanes)
                            (Map.lane_width m))))
        end).
Proof.
  intros Hm Hsound path. split.
  - split.
    + intros [e Hraise]. destruct path as [cps|e'] eqn:Hsp.
      * right. exists cps. split; [reflexivity|].
        destruct (le_lt_dec 3 (List.length cps)) as [Hlen|Hlen];
          [|exact Hlen].
        destruct (set_route_returns self m start_road_node end_road_node cps
                    Hm Hsound Hsp Hlen) as [self' Hok].
        congruence.
      * left. now exists e'.
    + intros [[e Hsp] | (cps & Hsp & Hlen)]; unfold path in Hsp;
        unfold set_route; rewrite Hm; cbn [bind not_none]; rewrite Hsp;
        cbn [bind].
      * now exists e.
      * replace (2 <? List.length cps)%nat with false
          by (symmetry; apply Nat.ltb_ge; lia).
        now exists AssertionError.
  - intros self' Hok. apply set_route_inv in Hok.
    destruct Hok as (m' & cps & n0 & l2 & fls & refs & n1 & fl & Hm' & Hsp
                     & Hlen & Hl2 & Hfls & Hfl & _ & _ & _ & _ & Hroad & Hc
                     & Hlane & Hrefs & _ & Hw & Hnavi & Hdest).
    rewrite Hm in Hm'. injection Hm' as <-.
    exists cps, l2, fls, fl, refs.
    split; [exact Hsp|]. split; [lia|].
    split.
    { destruct (Hsound _ _ _ Hsp) as [_ Hend]. apply Hend.
      intros ->. simpl in Hlen. lia. }
    split; [exact Hc|]. split; [exact Hw|].
    unfold get_navi_info. rewrite Hnavi.
    split; [unfold np_fill; apply length_map|].
    split; [apply fill_zero_all|].
    repeat (split; [assumption|]). exact Hdest.
Qed.

Lemma set_route_outcome_witness :
  raises (set_route Example.fresh "C" "D") /\
  exists cps last_lane,
    checkpoints Example.routed = Some cps /\
    (3 <= List.length cps)%nat /\
    final_lane Example.routed = Some last_lane /\
    _target_checkpoints_index Example.routed = Some (0, 1)%nat.
Proof.
  split.
  - destruct (set_route_outcome Example.fresh Example.map "C" "D")
      as [[_ Hraise] _].
    + reflexivity.
    + exact example_network_sound.
    + apply Hraise. right. exists ["C"; "D"]%string.
      split; [reflexivity | simpl; lia].
  - destruct (set_route_outcome Example.fresh Example.map "A" "D")
      as [_ Hok].
    + reflexivity.
    + exact example_network_sound.
    + destruct (Hok Example.routed example_set_route)
        as (cps & l2 & fls & fl & refs & _ & Hlen & _ & Hc & Hw & _ & _ & _
            & _ & _ & _ & Hlane & _).
      exists cps, fl. split; [exact Hc|]. split; [exact Hlen|].
      split; [exact Hlane | exact Hw].
Defined.

(** C3, as the claim words it, fails where it calls [final_lane] the lane
    used to place the destination mark: with marks shown and a last road of
    two lanes, [final_lane] is the second lane while the mark is put at the
    end of the first, which is another point. *)
Lemma set_route_mark_not_from_final_lane :
  exists self',
    set_route Example.shown "A" "D" = Ok self' /\
    final_lane self' = Some Example.cd1 /\
    _dest_node_path self' =
    Some (mark_position
            (lane_end_point Example.cd0 (later_middle_of 2 (7 / 2)))) /\
    _dest_node_path self' <>
    Some (mark_position
            (lane_end_point Example.cd1 (later_middle_of 2 (7 / 2)))).
Proof.
  eexists. split; [reflexivity|]. split; [reflexivity|].
  split; [reflexivity|].
  simpl. unfold mark_position, lane_end_point, later_middle_of. simpl.
  intros [= H]. lra.
Qed.

(** * Further properties of the module *)

(** ** The lane localizer, further *)

Lemma get_current_lane_loop_spec self refs possible_lanes :
  current_ref_lanes self = Some refs ->
  (exists lane index d,
      get_current_lane_loop self possible_lanes = Ok (Some (lane, index)) /\
      In (lane, index, d) possible_lanes /\
      Py.contains Lane.eqb lane refs = true) \/
  (get_current_lane_loop self possible_lanes = Ok None /\
   forall h : hit, In h possible_lanes ->
              Py.contains Lane.eqb (fst (fst h)) refs = false).
Proof.
  intros Hrefs.
  induction possible_lanes as [|[[l i] d] rest IH].
  - right. split; [reflexivity | intros h []].
  - simpl. rewrite Hrefs. simpl.
    destruct (Py.contains Lane.eqb l refs) eqn:Hl.
    + left. exists l, i, d. auto.
    + destruct IH as [(l' & i' & d' & Hloop & Hin & Hon) | [Hloop Hall]].
      * left. exists l', i', d'. auto.
      * right. split; [exact Hloop|].
        intros h [<- | Hh]; [exact Hl | now apply Hall].
Qed.

(** X1: with the reference lanes set, [get_current_lane] always returns; it
    returns [(None, None)] exactly when there is no hit; a lane it returns
    comes with its index from one of the hits; and that lane is one of the
    reference lanes exactly when some hit has its lane among them. *)
Theorem get_current_lane_is_a_hit self refs possible_lanes :
  current_ref_lanes self = Some refs ->
  exists r,
    get_current_lane self possible_lanes = Ok r /\
    (r = None <-> possible_lanes = []) /\
    (forall lane index,
        r = Some (lane, index) ->
        (exists d, In (lane, index, d) possible_lanes) /\
        (Py.contains Lane.eqb lane refs = true <->
         exists h : hit,
           In h possible_lanes /\
           Py.contains Lane.eqb (fst (fst h)) refs = true)).
Proof.
  intros Hrefs. unfold get_current_lane.
  destruct (get_current_lane_loop_spec self refs possible_lanes Hrefs)
    as [(l & i & d & Hloop & Hin & Hon) | [Hloop Hall]]; rewrite Hloop; simpl.
  - exists (Some (l, i)). split; [reflexivity|]. split.
    + split; [discriminate | intros ->; destruct Hin].
    + intros lane index [= <- <-]. split; [now exists d|].
      split; [intros _; now exists (l, i, d) | intros _; exact Hon].
  - destruct possible_lanes as [|[[l i] d] rest].
    + exists None. split; [reflexivity|]. split; [tauto|]. discriminate.
    + exists (Some (l, i)). split; [reflexivity|]. split.
      * split; discriminate.
      * intros lane index [= <- <-]. split; [exists d; now left|].
        pose proof (Hall (l, i, d) (or_introl eq_refl)) as Hl. simpl in Hl.
        rewrite Hl. split; [discriminate|].
        intros (h & Hh & Hon). rewrite (Hall h Hh) in Hon. discriminate.
Qed.

Lemma get_current_lane_is_a_hit_witness :
  exists r,
    get_current_lane Example.routed
      [ (Example.bc0, ("B", "C", 0%nat)%string, 2);
        (Example.cd0, ("C", "D", 0%nat)%string, 9) ] = Ok r /\
    r <> None.
Proof.
  destruct (get_current_lane_is_a_hit Example.routed
              [Example.ab0; Example.ab1]
              [ (Example.bc0, ("B", "C", 0%nat)%string, 2);
                (Example.cd0, ("C", "D", 0%nat)%string, 9) ])
    as (r & Hr & Hnone & _).
  - reflexivity.
  - exists r. split; [exact Hr|]. intros E. apply Hnone in E. discriminate.
Defined.

(** ** The checkpoint tracker, further *)

(** A call returns the module itself or the module with a new window. *)
Lemma update_target_checkpoints_shape self ego_lane_index long self' b :
  _update_target_checkpoints self ego_lane_index long = Ok (self', b) ->
  (self' = self /\ b = false) \/
  (exists w, self' = set_target_checkpoints_index self w /\ b = true).
Proof.
  unfold _update_target_checkpoints.
  destruct (_target_checkpoints_index self) as [[i j]|]; simpl; [|discriminate].
  destruct (i =? j)%nat; [intros [= <- <-]; now left|].
  destruct (checkpoints self) as [cps|]; simpl; [|discriminate].
  destruct (_ && _); [|intros [= <- <-]; now left].
  destruct (negb _); [intros [= <- <-]; now left|].
  destruct (Py.index _ _ _ _); simpl; [|discriminate].
  intros [= <- <-]. right. eauto.
Qed.

(** X2: the flag [_update_target_checkpoints] returns tells whether the
    window moved.  On [False] the module is exactly as before.  On [True]
    the window is a different one, its first index is at or after the old
    second index and is a position of the vehicle's segment start node in
    the route, and the longitude was below the update range. *)
Theorem update_flag_tells_change
  self cps w ego_lane_index ego_lane_longitude self' changed :
  checkpoints self = Some cps ->
  _target_checkpoints_index self = Some w ->
  _update_target_checkpoints self ego_lane_index ego_lane_longitude
    = Ok (self', changed) ->
  (changed = false -> self' = self) /\
  (changed = true <-> _target_checkpoints_index self' <> Some w) /\
  (changed = true ->
   exists w',
     _target_checkpoints_index self' = Some w' /\
     (snd w <= fst w')%nat /\
     nth_error cps (fst w') = Some (lane_index_0 ego_lane_index) /\
     ego_lane_longitude < CKPT_UPDATE_RANGE).
Proof.
  intros Hc Hw Hup. destruct w as [i j].
  destruct (Nat.eq_dec i j) as [->|Hij].
  - rewrite (update_target_checkpoints_terminal self j _ _ Hw) in Hup.
    injection Hup as <- <-.
    split; [reflexivity|]. split; [|discriminate].
    split; [discriminate | intros H; elim H; exact Hw].
  - destruct (update_target_checkpoints_cases self cps i j ego_lane_index
                ego_lane_longitude Hc Hw Hij)
      as [(_ & Hlt & idx & Hfirst & Hup') | [_ Hup']];
      rewrite Hup' in Hup; injection Hup as <- <-.
    + destruct Hfirst as (Hj & Hlast & Hat & _).
      assert (Hfst : fst (window_at cps idx) = idx)
        by (unfold window_at; destruct (_ =? _)%nat; reflexivity).
      assert (Hneq : window_at cps idx <> (i, j)).
      { unfold window_at. destruct (_ =? _)%nat; intros [= -> E]; lia. }
      split; [discriminate|]. split.
      * split; [intros _ [= E]; now apply Hneq | reflexivity].
      * intros _. exists (window_at cps idx). rewrite Hfst. simpl. auto.
    + split; [reflexivity|]. split; [|discriminate].
      split; [discriminate | intros H; elim H; exact Hw].
Qed.

Lemma update_flag_tells_change_witness :
  exists self' w',
    _update_target_checkpoints Example.routed ("C", "D", 0%nat)%string 3
      = Ok (self', true) /\
    _target_checkpoints_index self' = Some w' /\
    nth_error Example.route (fst w') = Some "C"%string.
Proof.
  assert (Hup : _update_target_checkpoints Example.routed
                  ("C", "D", 0%nat)%string 3
                = Ok (set_target_checkpoints_index Example.routed (2, 2)%nat,
                      true)).
  { unfold _update_target_checkpoints. simpl.
    rewrite Rltb_true by (unfold CKPT_UPDATE_RANGE; lra). reflexivity. }
  destruct (update_flag_tells_change Example.routed Example.route (0, 1)%nat
              ("C", "D", 0%nat)%string 3 _ true eq_refl eq_refl Hup)
    as (_ & _ & Hmoved).
  destruct (Hmoved eq_refl) as (w' & Hw' & _ & Hat & _).
  eexists. exists w'. split; [exact Hup|]. split; [exact Hw' | exact Hat].
Defined.

(** One call from a window that satisfies the invariant, with its flag: on
    [True] the first index grew. *)
Lemma update_target_checkpoints_advance self cps w ego_lane_index long :
  checkpoints self = Some cps ->
  _target_checkpoints_index self = Some w ->
  tracker_invariant cps w ->
  exists self' b w',
    _update_target_checkpoints self ego_lane_index long = Ok (self', b) /\
    checkpoints self' = Some cps /\
    _target_checkpoints_index self' = Some w' /\
    tracker_invariant cps w' /\
    (b = true -> (fst w < fst w')%nat) /\
    (b = false -> w' = w).
Proof.
  intros Hc Hw Hinv. destruct w as [i j].
  destruct (Nat.eq_dec i j) as [->|Hij].
  - exists self, false, (j, j).
    rewrite (update_target_checkpoints_terminal self j _ _ Hw).
    repeat split; auto. discriminate.
  - destruct (update_target_checkpoints_cases self cps i j ego_lane_index long
                Hc Hw Hij) as [(_ & _ & idx & Hfirst & Hup) | [_ Hup]].
    + exists (set_target_checkpoints_index self (window_at cps idx)), true,
        (window_at cps idx).
      split; [exact Hup|]. split; [exact Hc|]. split; [reflexivity|].
      split; [eapply tracker_invariant_jump; eassumption|].
      split; [|discriminate]. intros _.
      destruct Hfirst as (Hj & _).
      destruct Hinv as [[H1 H2]|[H1 H2]]; simpl in *; [|lia].
      unfold window_at. destruct (_ =? _)%nat; simpl; lia.
    + exists self, false, (i, j). repeat split; auto. discriminate.
Qed.

Lemma run_ticks_count_bound ticks :
  forall self cps w,
    checkpoints self = Some cps ->
    _target_checkpoints_index self = Some w ->
    tracker_invariant cps w ->
    exists s n w',
      run_ticks_count self ticks = Ok (s, n) /\
      run_ticks self ticks = Ok s /\
      _target_checkpoints_index s = Some w' /\
      tracker_invariant cps w' /\
      (fst w + n <= fst w')%nat.
Proof.
  induction ticks as [|[li long] ticks IH]; intros self cps w Hc Hw Hinv.
  - exists self, 0%nat, w. simpl. repeat split; auto. lia.
  - destruct (update_target_checkpoints_advance self cps w li long Hc Hw Hinv)
      as (s1 & b & w1 & Hup & Hc1 & Hw1 & Hinv1 & Htrue & Hfalse).
    destruct (IH s1 cps w1 Hc1 Hw1 Hinv1)
      as (s2 & n & w2 & Hcount & Hrun & Hw2 & Hinv2 & Hle).
    exists s2, (if b then S n else n), w2. simpl.
    rewrite Hup. simpl. rewrite Hcount. simpl.
    split; [reflexivity|]. split; [exact Hrun|]. split; [exact Hw2|].
    split; [exact Hinv2|].
    destruct b.
    + specialize (Htrue eq_refl). lia.
    + rewrite (Hfalse eq_refl) in Hle. exact Hle.
Qed.

(** X3: after [set_route], over any sequence of calls of
    [_update_target_checkpoints], the number of calls that return [True] is
    at most the first index of the window reached, hence at most
    [len(route) - 2]: a route is consumed in at most that many advances. *)
Theorem advances_are_bounded self0 a b self ticks :
  set_route self0 a b = Ok self ->
  exists cps s n i j,
    checkpoints self = Some cps /\
    run_ticks_count self ticks = Ok (s, n) /\
    run_ticks self ticks = Ok s /\
    _target_checkpoints_index s = Some (i, j) /\
    (n <= i)%nat /\
    (n <= List.length cps - 2)%nat.
Proof.
  intros Hroute. apply set_route_inv in Hroute.
  destruct Hroute as (m & cps & n0 & l2 & fls & refs & n1 & fl & _ & _ & Hlen
                      & _ & _ & _ & _ & _ & _ & _ & _ & Hc & _ & _ & _ & Hw & _).
  destruct (run_ticks_count_bound ticks self cps (0, 1)%nat Hc Hw
              (initial_window_invariant cps Hlen))
    as (s & n & [i j] & Hcount & Hrun & Hws & Hinv & Hle).
  exists cps, s, n, i, j. repeat (split; [assumption|]).
  simpl in Hle. apply tracker_invariant_window in Hinv.
  unfold window_invariant in Hinv. simpl in Hinv. lia.
Qed.

Lemma advances_are_bounded_witness :
  exists cps s n i j,
    checkpoints Example.routed = Some cps /\
    run_ticks_count Example.routed
      [(("B", "C", 0%nat)%string, 1); (("B", "C", 0%nat)%string, 6);
       (("C", "D", 0%nat)%string, 2); (("C", "D", 1%nat)%string, 0)]
      = Ok (s, n) /\
    run_ticks Example.routed
      [(("B", "C", 0%nat)%string, 1); (("B", "C", 0%nat)%string, 6);
       (("C", "D", 0%nat)%string, 2); (("C", "D", 1%nat)%string, 0)]
      = Ok s /\
    _target_checkpoints_index s = Some (i, j) /\
    (n <= i)%nat /\
    (n <= List.length cps - 2)%nat.
Proof.
  apply (advances_are_bounded Example.fresh "A" "D"). reflexivity.
Defined.

Lemma first_index_NoDup (cps : list string) (node : string) (j k idx : nat) :
  NoDup cps ->
  nth_error cps k = Some node ->
  first_index_from cps node j idx ->
  idx = k.
Proof.
  intros Hnd Hk (_ & Hlast & Hidx & _).
  apply (proj1 (NoDup_nth_error cps) Hnd); [lia | congruence].
Qed.

(** X4: on a route without repeated nodes, when the window is not terminal
    and the vehicle is, within the update range, on the road that starts at
    the [k]-th node of the route, for [k] from the second index of the
    window up to [len(route) - 2], the call returns [True] and the window
    becomes [[k, k + 1]], or [[k, k]] when that road is the last one. *)
Theorem jump_to_vehicle_road
  self cps i j ego_lane_index ego_lane_longitude k :
  checkpoints self = Some cps ->
  _target_checkpoints_index self = Some (i, j) ->
  i <> j ->
  NoDup cps ->
  nth_error cps k = Some (lane_index_0 ego_lane_index) ->
  (j <= k)%nat ->
  (k < List.length cps - 1)%nat ->
  ego_lane_longitude < CKPT_UPDATE_RANGE ->
  exists self',
    _update_target_checkpoints self ego_lane_index ego_lane_longitude
      = Ok (self', true) /\
    checkpoints self' = Some cps /\
    ((k + 2)%nat = List.length cps ->
     _target_checkpoints_index self' = Some (k, k)) /\
    ((k + 2)%nat <> List.length cps ->
     _target_checkpoints_index self' = Some (k, (k + 1)%nat)).
Proof.
  intros Hc Hw Hij Hnd Hk Hjk Hlast Hlt.
  destruct (update_target_checkpoints_cases self cps i j ego_lane_index
              ego_lane_longitude Hc Hw Hij)
    as [(_ & _ & idx & Hfirst & Hup) | [[Hno|Hno] _]].
  - rewrite (first_index_NoDup cps _ j k idx Hnd Hk Hfirst) in Hup.
    exists (set_target_checkpoints_index self (window_at cps k)).
    split; [exact Hup|]. split; [exact Hc|].
    destruct (window_at_cases cps k) as [He Hn].
    split; intros E; simpl; [rewrite He | rewrite Hn]; (reflexivity || lia).
  - exfalso. apply Hno.
    apply nth_error_In with (n := (k - j)%nat).
    rewrite nth_error_slice_to_last.
    replace (j + (k - j))%nat with k by lia.
    replace (k <? List.length cps - 1)%nat with true; [exact Hk|].
    symmetry. now apply Nat.ltb_lt.
  - contradiction.
Qed.

Lemma jump_to_vehicle_road_witness :
  exists self',
    _update_target_checkpoints Example.routed ("C", "D", 1%nat)%string 0
      = Ok (self', true) /\
    _target_checkpoints_index self' = Some (2, 2)%nat.
Proof.
  destruct (jump_to_vehicle_road Example.routed Example.route 0 1
              ("C", "D", 1%nat)%string 0 2)
    as (self' & Hup & _ & Hlast & _).
  - reflexivity.
  - reflexivity.
  - discriminate.
  - unfold Example.route.
    repeat (constructor;
            [simpl; intros H;
             repeat (destruct H as [H|H]; [discriminate H|]); exact H|]).
    constructor.
  - reflexivity.
  - lia.
  - simpl. lia.
  - unfold CKPT_UPDATE_RANGE. lra.
  - exists self'. split; [exact Hup|]. apply Hlast. reflexivity.
Defined.

(** ** The route planner, further *)

Lemma np_fill_fill (a : list R) (x : R) : np_fill (np_fill a x) x = np_fill a x.
Proof. unfold np_fill. rewrite map_map. reflexivity. Qed.

(** A tracker run changes the window and nothing else. *)
Lemma run_ticks_shape ticks :
  forall self s,
    run_ticks self ticks = Ok s ->
    s = self \/ exists w, s = set_target_checkpoints_index self w.
Proof.
  induction ticks as [|[li long] ticks IH]; intros self s H; simpl in H.
  - injection H as <-. now left.
  - bind_inv H. destruct a as [s1 b].
    apply update_target_checkpoints_shape in E.
    apply IH in H.
    destruct E as [[-> _] | [w [-> _]]]; [exact H|].
    destruct H as [-> | [w' ->]]; right;
      [exists w | exists w']; reflexivity.
Qed.

Lemma set_route_idempotent self a b routed :
  set_route self a b = Ok routed -> set_route routed a b = Ok routed.
Proof.
  unfold set_route. intros H.
  destruct (map self) as [m|] eqn:Hm; simpl in H; [|discriminate].
  destruct (RoadNetwork.shortest_path _ a b) as [cps|] eqn:Hsp; simpl in H;
    [|discriminate].
  destruct (2 <? List.length cps)%nat eqn:Hlen; simpl in H; [|discriminate].
  destruct (Py.getitem_neg cps 2) as [last2|] eqn:Hl2; simpl in H;
    [|discriminate].
  destruct (Road_get_lanes _ _) as [final_lanes|] eqn:Hfl; simpl in H;
    [|discriminate].
  destruct (Py.getitem_neg final_lanes 1) as [fl|] eqn:Hlast; simpl in H;
    [|discriminate].
  destruct (Py.getitem cps 0) as [n0|] eqn:H0; simpl in H; [|discriminate].
  destruct (Py.getitem cps 1) as [n1|] eqn:H1; simpl in H; [|discriminate].
  destruct (RoadNetwork.lanes _ n0 n1) as [refs|] eqn:Hrefs; simpl in H;
    [|discriminate].
  destruct (_dest_node_path self) as [d|].
  - destruct (Py.getitem final_lanes 0) as [ref_lane|] eqn:Hr; simpl in H;
      [|discriminate].
    injection H as <-. simpl.
    rewrite Hsp. simpl. rewrite Hlen. simpl. rewrite Hl2. simpl.
    rewrite Hfl. simpl. rewrite Hlast. simpl. rewrite H0, H1. simpl.
    rewrite Hrefs. simpl. rewrite Hr. simpl. now rewrite np_fill_fill.
  - injection H as <-. simpl.
    rewrite Hsp. simpl. rewrite Hlen. simpl. rewrite Hl2. simpl.
    rewrite Hfl. simpl. rewrite Hlast. simpl. rewrite H0, H1. simpl.
    rewrite Hrefs. simpl. now rewrite np_fill_fill.
Qed.

(** X5: planning the same route again undoes the progress of the tracker
    and nothing else: after a successful [set_route] and any sequence of
    [_update_target_checkpoints] calls, [set_route] with the same nodes
    returns and gives back the module as the first [set_route] left it. *)
Theorem set_route_again self a b routed ticks later :
  set_route self a b = Ok routed ->
  run_ticks routed ticks = Ok later ->
  set_route later a b = Ok routed.
Proof.
  intros Hroute Hrun. apply set_route_idempotent in Hroute.
  apply run_ticks_shape in Hrun. destruct Hrun as [-> | [w ->]];
    exact Hroute.
Qed.

Lemma set_route_again_witness :
  set_route
    (set_target_checkpoints_index Example.routed (1, 2)%nat) "A" "D"
  = Ok Example.routed.
Proof.
  apply (set_route_again Example.fresh "A" "D" Example.routed
           [(("B", "C", 0%nat)%string, 1)]).
  - reflexivity.
  - unfold run_ticks, _update_target_checkpoints. simpl.
    rewrite Rltb_true by (unfold CKPT_UPDATE_RANGE; lra). reflexivity.
Defined.

(** ** Navigation updates, further *)

(** X6: before a route is set there is no window, and then
    [_update_target_checkpoints] raises [TypeError] and
    [update_navigation_localization] raises, whatever the vehicle and the
    ray cast: the module cannot be driven before [set_route]. *)
Theorem no_route_no_update space self ego_vehicle possible_lanes :
  _target_checkpoints_index self = None ->
  raises (update_navigation_localization space self ego_vehicle
            possible_lanes) /\
  forall ego_lane_index ego_lane_longitude,
    _update_target_checkpoints self ego_lane_index ego_lane_longitude
    = Raise TypeError.
Proof.
  intros Hw.
  assert (Hup : forall li long,
             _update_target_checkpoints self li long = Raise TypeError).
  { intros li long. unfold _update_target_checkpoints. now rewrite Hw. }
  split; [|exact Hup].
  unfold update_navigation_localization.
  destruct (get_current_lane self possible_lanes) as [[[lane index]|]|e];
    simpl; [| |now exists e].
  - rewrite Hup. simpl. now exists TypeError.
  - destruct (FORCE_CALCULATE self).
    + destruct (map self) as [m|]; simpl; [|now exists AttributeError].
      destruct (RoadNetwork.get_closest_lane_index _ _) as [li d].
      destruct (RoadNetwork.get_lane _ li) as [l|e]; simpl; [|now exists e].
      rewrite Hup. simpl. now exists TypeError.
    + simpl. rewrite Hup. simpl. now exists TypeError.
Qed.

Lemma no_route_no_update_witness :
  raises (update_navigation_localization Example.space Example.fresh
            (Example.vehicle_at 1 0)
            [(Example.ab0, ("A", "B", 0%nat)%string, 0)]).
Proof.
  apply (no_route_no_update Example.space Example.fresh
           (Example.vehicle_at 1 0)
           [(Example.ab0, ("A", "B", 0%nat)%string, 0)]).
  reflexivity.
Defined.

(** What a successful [update_navigation_localization] did, step by step. *)
Lemma update_navigation_localization_inv
  space self ego_vehicle possible_lanes self' ego_vehicle' r :
  update_navigation_localization space self ego_vehicle possible_lanes
    = Ok (self', ego_vehicle', r) ->
  exists found self1 changed cps w n1 n2 n3 n4 m lanes1 lanes2 navi goal,
    get_current_lane self possible_lanes = Ok found /\
    match found with
    | Some hit_lane => r = hit_lane /\ ego_vehicle' = ego_vehicle
    | None =>
        ego_vehicle' = Vehicle.set_on_lane ego_vehicle false /\
        if FORCE_CALCULATE self
        then exists m0,
            map self = Some m0 /\
            snd r = fst (RoadNetwork.get_closest_lane_index
                           (Map.road_network m0)
                           (Vehicle.position ego_vehicle)) /\
            RoadNetwork.get_lane (Map.road_network m0) (snd r) = Ok (fst r)
        else r = (Vehicle.lane ego_vehicle, Vehicle.lane_index ego_vehicle)
    end /\
    _update_target_checkpoints self (snd r)
      (fst (Lane.local_coordinates (fst r) (Vehicle.position ego_vehicle)))
    = Ok (self1, changed) /\
    checkpoints self1 = Some cps /\
    (2 < List.length cps)%nat /\
    _target_checkpoints_index self1 = Some w /\
    target_roads cps w = Ok (n1, n2, n3, n4) /\
    map self1 = Some m /\
    RoadNetwork.lanes (Map.road_network m) n1 n2 = Ok lanes1 /\
    RoadNetwork.lanes (Map.road_network m) n3 n4 = Ok lanes2 /\
    List.length navi = navigation_info_dim /\
    (_show_navi_info self1 = true -> goal <> None) /\
    self' =
    set_navigation self1 lanes1 (Road.mk n1 n2) navi goal.
Proof.
  unfold update_navigation_localization. intros H.
  destruct (get_current_lane self possible_lanes) as [found|] eqn:Hfound;
    simpl in H; [|discriminate].
  match type of H with bind ?c _ = _ => destruct c as [[[lane li] ego1]|] eqn:Hloc end;
    simpl in H; [|discriminate].
  destruct (_update_target_checkpoints self li _) as [[self1 changed]|] eqn:Hup;
    simpl in H; [|discriminate].
  destruct (checkpoints self1) as [cps|] eqn:Hc; simpl in H; [|discriminate].
  destruct (2 <? List.length cps)%nat eqn:Hlen; simpl in H; [|discriminate].
  apply Nat.ltb_lt in Hlen.
  destruct (_target_checkpoints_index self1) as [w|] eqn:Hw; simpl in H;
    [|discriminate].
  destruct (target_roads cps w) as [[[[n1 n2] n3] n4]|] eqn:Hroads;
    simpl in H; [|discriminate].
  destruct (map self1) as [m|] eqn:Hm; simpl in H; [|discriminate].
  destruct (RoadNetwork.lanes _ n1 n2) as [lanes1|] eqn:Hl1; simpl in H;
    [|discriminate].
  destruct (RoadNetwork.lanes _ n3 n4) as [lanes2|] eqn:Hl2; simpl in H;
    [|discriminate].
  destruct (_get_info_for_checkpoint space _ 0 lanes1 ego1)
    as [[[info1 h1] cp1]|] eqn:Hi1; simpl in H; [|discriminate].
  destruct (np_set_head _ _ info1) as [navi1|] eqn:Hn1; simpl in H;
    [|discriminate].
  destruct (_get_info_for_checkpoint space _ 1 lanes2 ego1)
    as [[[info2 h2] cp2]|] eqn:Hi2; simpl in H; [|discriminate].
  destruct (np_set_tail navi1 _ info2) as [navi2|] eqn:Hn2; simpl in H;
    [|discriminate].
  match type of H with bind ?c _ = _ => destruct c as [goal|] eqn:Hgoal end;
    simpl in H; [|discriminate].
  injection H as <- <- <-.
  exists found, self1, changed, cps, w, n1, n2, n3, n4, m, lanes1, lanes2,
    navi2, goal.
  split; [reflexivity|]. split.
  { destruct found as [[l i]|].
    - injection Hloc as <- <- <-. split; reflexivity.
    - destruct (FORCE_CALCULATE self).
      + destruct (map self) as [m0|]; simpl in Hloc; [|discriminate].
        destruct (RoadNetwork.get_closest_lane_index _ _) as [li0 d0] eqn:Hcl.
        destruct (RoadNetwork.get_lane _ li0) as [l0|] eqn:Hgl;
          simpl in Hloc; [|discriminate].
        injection Hloc as <- <- <-. split; [reflexivity|].
        exists m0. simpl. rewrite Hcl. simpl. auto.
      + injection Hloc as <- <- <-. split; reflexivity. }
  split; [exact Hup|]. split; [exact Hc|]. split; [exact Hlen|].
  split; [exact Hw|]. split; [exact Hroads|]. split; [exact Hm|].
  split; [exact Hl1|]. split; [exact Hl2|].
  split.
  { apply get_info_for_checkpoint_inv in Hi1, Hi2.
    destruct Hi1 as (? & ? & ? & ? & ? & ? & _ & _ & _ & _ & _ & ->).
    destruct Hi2 as (? & ? & ? & ? & ? & ? & _ & _ & _ & _ & _ & ->).
    unfold np_set_head in Hn1. bind_inv Hn1. injection Hn1 as <-.
    unfold np_set_tail in Hn2. bind_inv Hn2. injection Hn2 as <-.
    reflexivity. }
  split.
  { intros Hshow. simpl in Hgoal. rewrite Hshow in Hgoal.
    destruct (_goal_node_path self1); simpl in Hgoal; [|discriminate].
    injection Hgoal as <-. discriminate. }
  reflexivity.
Qed.

Lemma target_roads_nth (cps : list string) (w : nat * nat) a b c d :
  target_roads cps w = Ok (a, b, c, d) ->
  nth_error cps (fst w) = Some a /\ nth_error cps (fst w + 1) = Some b /\
  nth_error cps (snd w) = Some c /\ nth_error cps (snd w + 1) = Some d.
Proof.
  unfold target_roads, Py.getitem. intros H.
  destruct (nth_error cps (fst w)); simpl in H; [|discriminate].
  destruct (nth_error cps (fst w + 1)); simpl in H; [|discriminate].
  destruct (nth_error cps (snd w)); simpl in H; [|discriminate].
  destruct (nth_error cps (snd w + 1)); simpl in H; [|discriminate].
  injection H as <- <- <- <-. auto.
Qed.

(** X7: a successful [update_navigation_localization] leaves the route, the
    map, the final road and lane, the destination mark and the settings as
    they were; the route has more than two nodes; and afterwards
    [current_road] is the road from the node at the first index of the
    window to the next node of the route, with [current_ref_lanes] the
    lanes the graph holds for that road. *)
Theorem update_keeps_route
  space self ego_vehicle possible_lanes self' ego_vehicle' r :
  update_navigation_localization space self ego_vehicle possible_lanes
    = Ok (self', ego_vehicle', r) ->
  exists cps m w a b lanes1,
    checkpoints self = Some cps /\ checkpoints self' = Some cps /\
    (2 < List.length cps)%nat /\
    map self = Some m /\ map self' = Some m /\
    final_road self' = final_road self /\
    final_lane self' = final_lane self /\
    FORCE_CALCULATE self' = FORCE_CALCULATE self /\
    _show_navi_info self' = _show_navi_info self /\
    _dest_node_path self' = _dest_node_path self /\
    _target_checkpoints_index self' = Some w /\
    nth_error cps (fst w) = Some a /\
    nth_error cps (fst w + 1) = Some b /\
    current_road self' = Some (Road.mk a b) /\
    RoadNetwork.lanes (Map.road_network m) a b = Ok lanes1 /\
    current_ref_lanes self' = Some lanes1.
Proof.
  intros H. apply update_navigation_localization_inv in H.
  destruct H as (found & self1 & changed & cps & w & n1 & n2 & n3 & n4 & m
                 & lanes1 & lanes2 & navi & goal & _ & _ & Hup & Hc & Hlen
                 & Hw & Hroads & Hm & Hl1 & _ & _ & _ & ->).
  apply target_roads_nth in Hroads. destruct Hroads as (Ha & Hb & _).
  exists cps, m, w, n1, n2, lanes1.
  apply update_target_checkpoints_shape in Hup.
  destruct Hup as [[-> _] | [w0 [-> _]]]; simpl in *; auto 20.
Qed.

Lemma update_keeps_route_witness :
  exists s v r,
    update_navigation_localization Example.space Example.routed
      (Example.vehicle_at 1 0)
      [(Example.ab0, ("A", "B", 0%nat)%string, 0)]
    = Ok (s, v, r) /\
    checkpoints s = checkpoints Example.routed /\
    exists a b, current_road s = Some (Road.mk a b).
Proof.
  destruct example_update_returns as (s & v & r & Hup).
  exists s, v, r. split; [exact Hup|].
  destruct (update_keeps_route _ _ _ _ _ _ _ Hup)
    as (cps & m & w & a & b & lanes1 & Hc & Hc' & _ & _ & _ & _ & _ & _ & _
        & _ & _ & _ & _ & Hroad & _).
  split; [congruence | eauto].
Defined.

Lemma get_current_lane_nonempty self possible_lanes found :
  get_current_lane self possible_lanes = Ok found ->
  possible_lanes <> [] ->
  exists lane index d,
    found = Some (lane, index) /\ In (lane, index, d) possible_lanes.
Proof.
  intros H Hne.
  destruct (current_ref_lanes self) as [refs|] eqn:Hrefs.
  - unfold get_current_lane in H.
    destruct (get_current_lane_loop_spec self refs possible_lanes Hrefs)
      as [(l & i & d & Hloop & Hin & _) | [Hloop _]];
      rewrite Hloop in H; simpl in H.
    + injection H as <-. now exists l, i, d.
    + destruct possible_lanes as [|[[l0 i0] d0] rest]; [contradiction|].
      injection H as <-. exists l0, i0, d0.
      split; [reflexivity | now left].
  - destruct possible_lanes as [|[[l0 i0] d0] rest]; [contradiction|].
    unfold get_current_lane in H. simpl in H. rewrite Hrefs in H.
    discriminate.
Qed.

(** X8: how a successful [update_navigation_localization] localizes.  With
    at least one ray hit it returns the lane and index of one of the hits
    and leaves the vehicle as it was.  With no hit it marks the vehicle as
    off its lane ([on_lane = False], nothing else changed) and returns the
    vehicle's own last lane and index, or, when [FORCE_CALCULATE] is set,
    the lane at the closest lane index of the road network. *)
Theorem localization_fallback
  space self ego_vehicle possible_lanes self' ego_vehicle' lane lane_index :
  update_navigation_localization space self ego_vehicle possible_lanes
    = Ok (self', ego_vehicle', (lane, lane_index)) ->
  (possible_lanes <> [] ->
   ego_vehicle' = ego_vehicle /\
   exists d, In (lane, lane_index, d) possible_lanes) /\
  (possible_lanes = [] ->
   ego_vehicle' = Vehicle.set_on_lane ego_vehicle false /\
   Vehicle.on_lane ego_vehicle' = false /\
   (FORCE_CALCULATE self = false ->
    lane = Vehicle.lane ego_vehicle /\
    lane_index = Vehicle.lane_index ego_vehicle) /\
   (FORCE_CALCULATE self = true ->
    exists m,
      map self = Some m /\
      lane_index =
      fst (RoadNetwork.get_closest_lane_index (Map.road_network m)
             (Vehicle.position ego_vehicle)) /\
      RoadNetwork.get_lane (Map.road_network m) lane_index = Ok lane)).
Proof.
  intros H. apply update_navigation_localization_inv in H.
  destruct H as (found & self1 & changed & cps & w & n1 & n2 & n3 & n4 & m
                 & lanes1 & lanes2 & navi & goal & Hfound & Hloc & _).
  split.
  - intros Hne.
    destruct (get_current_lane_nonempty self possible_lanes found Hfound Hne)
      as (l & i & d & -> & Hin).
    destruct Hloc as [[= -> ->] ->]. split; [reflexivity | now exists d].
  - intros ->. simpl in Hfound.
    unfold get_current_lane in Hfound. simpl in Hfound.
    injection Hfound as <-. destruct Hloc as [-> Hloc].
    split; [reflexivity|]. split; [reflexivity|].
    destruct (FORCE_CALCULATE self); simpl in Hloc.
    + split; [discriminate|]. intros _. exact Hloc.
    + split; [|discriminate]. intros _. injection Hloc as -> ->. auto.
Qed.

Lemma example_update_off_lane :
  exists s v r,
    update_navigation_localization Example.space Example.routed
      (Example.vehicle_at 1 0) [] = Ok (s, v, r).
Proof.
  unfold update_navigation_localization. simpl.
  destruct (get_info_for_checkpoint_returns Example.space
              (set_navigation Example.routed [Example.ab0; Example.ab1]
                 (Road.mk "A" "B") [0; 0; 0; 0; 0; 0; 0; 0; 0; 0] None)
              0 Example.ab0 [Example.ab1]
              (Vehicle.set_on_lane (Example.vehicle_at 1 0) false)
              [Example.ab0; Example.ab1] Example.map)
    as (info1 & h1 & cp1 & E1 & L1);
    [reflexivity | reflexivity | intros H; now elim H |].
  destruct (get_info_for_checkpoint_returns Example.space
              (set_navigation Example.routed [Example.ab0; Example.ab1]
                 (Road.mk "A" "B") [0; 0; 0; 0; 0; 0; 0; 0; 0; 0] None)
              1 Example.bc0 [Example.bc1]
              (Vehicle.set_on_lane (Example.vehicle_at 1 0) false)
              [Example.ab0; Example.ab1] Example.map)
    as (info2 & h2 & cp2 & E2 & L2);
    [reflexivity | reflexivity | intros _; simpl; lra |].
  rewrite E1. simpl. unfold np_set_head. rewrite L1. simpl.
  rewrite E2. simpl. unfold np_set_tail.
  rewrite length_app, L1, L2. simpl. eauto.
Qed.

Lemma localization_fallback_witness :
  exists s v lane lane_index,
    update_navigation_localization Example.space Example.routed
      (Example.vehicle_at 1 0) [] = Ok (s, v, (lane, lane_index)) /\
    Vehicle.on_lane v = false /\
    lane = Example.ab0.
Proof.
  destruct example_update_off_lane as (s & v & [lane lane_index] & Hup).
  exists s, v, lane, lane_index. split; [exact Hup|].
  destruct (localization_fallback _ _ _ _ _ _ _ _ Hup) as [_ Hnone].
  destruct (Hnone eq_refl) as (_ & Hoff & Hown & _).
  split; [exact Hoff|]. now destruct (Hown eq_refl).
Defined.

(** ** Driving along a route *)

Lemma roads_of_nth (cps : list string) :
  forall k a b,
    nth_error cps k = Some a -> nth_error cps (k + 1) = Some b ->
    In (a, b) (roads_of cps).
Proof.
  induction cps as [|x rest IH]; intros k a b Ha Hb.
  - destruct k; discriminate.
  - destruct rest as [|y rest'].
    + destruct k as [|[|k]]; simpl in Hb; discriminate.
    + change (roads_of (x :: y :: rest')) with ((x, y) :: roads_of (y :: rest')).
      destruct k as [|k].
      * simpl in Ha, Hb. injection Ha as <-. injection Hb as <-. now left.
      * right. apply (IH k); assumption.
Qed.

Lemma set_route_keeps self a b self' :
  set_route self a b = Ok self' ->
  FORCE_CALCULATE self' = FORCE_CALCULATE self /\
  _show_navi_info self' = _show_navi_info self /\
  _goal_node_path self' = _goal_node_path self /\
  List.length (_navi_info self') = List.length (_navi_info self).
Proof.
  unfold set_route. intros H.
  destruct (map self) as [m|]; simpl in H; [|discriminate].
  destruct (RoadNetwork.shortest_path _ a b) as [cps|]; simpl in H;
    [|discriminate].
  destruct (2 <? List.length cps)%nat; simpl in H; [|discriminate].
  destruct (Py.getitem_neg cps 2); simpl in H; [|discriminate].
  destruct (Road_get_lanes _ _) as [final_lanes|]; simpl in H; [|discriminate].
  destruct (Py.getitem_neg final_lanes 1); simpl in H; [|discriminate].
  destruct (Py.getitem cps 0); simpl in H; [|discriminate].
  destruct (Py.getitem cps 1); simpl in H; [|discriminate].
  destruct (RoadNetwork.lanes _ _ _); simpl in H; [|discriminate].
  destruct (_dest_node_path self).
  - destruct (Py.getitem final_lanes 0); simpl in H; [|discriminate].
    injection H as <-. simpl. unfold np_fill. rewrite length_map. auto.
  - injection H as <-. simpl. unfold np_fill. rewrite length_map. auto.
Qed.

(** In every state a module goes through, the feature vector has its ten
    places and the goal mark exists if marks are shown. *)
Lemma reachable_shape space self :
  reachable space self ->
  List.length (_navi_info self) = navigation_info_dim /\
  (_show_navi_info self = true -> _goal_node_path self <> None).
Proof.
  induction 1 as [onscreen | self m _ IH | self force _ IH
                 | self a b self' _ IH Hroute
                 | self ego hits self' ego' r _ IH Hup].
  - split; [apply repeat_length|]. simpl. intros ->. discriminate.
  - exact IH.
  - exact IH.
  - apply set_route_keeps in Hroute.
    destruct Hroute as (_ & Hs & Hg & Hl). rewrite Hs, Hg, Hl. exact IH.
  - apply update_navigation_localization_inv in Hup.
    destruct Hup as (found & self1 & changed & cps & w & n1 & n2 & n3 & n4 & m
                     & lanes1 & lanes2 & navi & goal & _ & _ & _ & _ & _ & _
                     & _ & _ & _ & _ & Hlen & Hgoal & ->).
    simpl. split; [exact Hlen | exact Hgoal].
Qed.

Lemma drivable_after_set_route space self0 m a b self :
  reachable space self0 ->
  map self0 = Some m ->
  sound_shortest_path (Map.road_network m) ->
  FORCE_CALCULATE self0 = false ->
  set_route self0 a b = Ok self ->
  exists cps, drivable m cps self.
Proof.
  intros Hreach Hm Hsound Hforce Hroute.
  destruct (reachable_shape space self0 Hreach) as [Hlen Hgoal].
  pose proof (set_route_keeps _ _ _ _ Hroute) as (Hf & Hs & Hg & Hl).
  apply set_route_inv in Hroute.
  destruct Hroute as (m' & cps & n0 & l2 & fls & refs & n1 & fl & Hm' & Hsp
                      & Hcps & _ & _ & _ & _ & _ & _ & Hmap & _ & Hc & _
                      & Hrefs & _ & Hw & _).
  rewrite Hm in Hm'. injection Hm' as <-.
  exists cps. unfold drivable.
  split; [exact Hmap|]. split; [exact Hc|]. split; [exact Hcps|].
  split; [apply (Hsound a b cps Hsp)|].
  split; [exists (0, 1)%nat; split;
          [exact Hw | now apply initial_window_invariant]|].
  split; [now exists refs|].
  split; [congruence|]. split; [|congruence].
  rewrite Hs, Hg. exact Hgoal.
Qed.

Lemma np_set_head_returns (a vals : list R) :
  List.length a = 10%nat -> List.length vals = 5%nat ->
  np_set_head a 5 vals = Ok (vals ++ skipn 5 a).
Proof.
  intros Ha Hv. unfold np_set_head. rewrite Ha, Hv. reflexivity.
Qed.

Lemma np_set_tail_returns (a vals : list R) :
  List.length a = 10%nat -> List.length vals = 5%nat ->
  np_set_tail a 5 vals = Ok (firstn 5 a ++ vals).
Proof.
  intros Ha Hv. unfold np_set_tail. rewrite Ha, Hv. reflexivity.
Qed.

(** One step of a module that can be driven: the call returns and the
    module can be driven again; the window did not go back. *)
Lemma drivable_step space m cps self ego_vehicle possible_lanes :
  0 < CurveSpace.radius_max space ->
  0 <= Map.lane_width m ->
  drivable m cps self ->
  exists self' ego_vehicle' r,
    update_navigation_localization space self ego_vehicle possible_lanes
      = Ok (self', ego_vehicle', r) /\
    drivable m cps self'.
Proof.
  intros Hrad Hwidth (Hm & Hc & Hlen & Hroads & (w & Hw & Hinv) & (refs & Hrefs)
                      & Hnavi & Hgoal & Hforce).
  unfold update_navigation_localization.
  (* localization *)
  assert (Hloc : exists found,
             get_current_lane self possible_lanes = Ok found).
  { unfold get_current_lane.
    destruct (get_current_lane_loop_spec self refs possible_lanes Hrefs)
      as [(l & i & d & Hloop & _) | [Hloop _]]; rewrite Hloop; simpl.
    - eauto.
    - destruct possible_lanes as [|[[l i] d] rest]; eauto. }
  destruct Hloc as [found Hfound]. rewrite Hfound. cbn [bind].
  set (loc := match found with
              | Some (lane, lane_index) => Ok (lane, lane_index, ego_vehicle)
              | None => _
              end).
  assert (Hlocok : exists lane li ego1, loc = Ok (lane, li, ego1)).
  { unfold loc. destruct found as [[l i]|]; [eauto|].
    rewrite Hforce. eauto. }
  destruct Hlocok as (lane & li & ego1 & ->). cbn [bind].
  (* the tracker *)
  destruct (update_target_checkpoints_step self cps w li
              (fst (Lane.local_coordinates lane
                      (Vehicle.position ego_vehicle))) Hc Hw Hinv)
    as (self1 & b & w1 & Hup & Hc1 & Hw1 & Hinv1 & _).
  rewrite Hup. cbn [bind].
  assert (Hsame : map self1 = map self /\
                  _navi_info self1 = _navi_info self /\
                  FORCE_CALCULATE self1 = FORCE_CALCULATE self /\
                  _show_navi_info self1 = _show_navi_info self /\
                  _goal_node_path self1 = _goal_node_path self).
  { apply update_target_checkpoints_shape in Hup.
    destruct Hup as [[-> _] | [w0 [-> _]]]; simpl; auto. }
  destruct Hsame as (Hm1 & Hn1 & Hf1 & Hs1 & Hg1).
  rewrite Hc1. cbn [bind not_none].
  replace (2 <? List.length cps)%nat with true
    by (symmetry; now apply Nat.ltb_lt).
  cbn [negb]. rewrite Hw1. cbn [bind not_none].
  (* the reads *)
  pose proof (tracker_invariant_window cps w1 Hinv1) as [(Hi & Hj & _) _].
  destruct (nth_error_in_bounds cps (fst w1)) as [n1 Hn1']; [lia|].
  destruct (nth_error_in_bounds cps (fst w1 + 1)%nat) as [n2 Hn2']; [lia|].
  destruct (nth_error_in_bounds cps (snd w1)) as [n3 Hn3']; [lia|].
  destruct (nth_error_in_bounds cps (snd w1 + 1)%nat) as [n4 Hn4']; [lia|].
  assert (Hreads : target_roads cps w1 = Ok (n1, n2, n3, n4)).
  { unfold target_roads, Py.getitem. now rewrite Hn1', Hn2', Hn3', Hn4'. }
  rewrite Hreads. cbn [bind]. rewrite Hm1, Hm. cbn [bind not_none].
  rewrite Forall_forall in Hroads.
  destruct (Hroads (n1, n2) (roads_of_nth cps _ _ _ Hn1' Hn2'))
    as (la & las & Hl1).
  destruct (Hroads (n3, n4) (roads_of_nth cps _ _ _ Hn3' Hn4'))
    as (lb & lbs & Hl2).
  simpl in Hl1, Hl2. rewrite Hl1. cbn [bind]. rewrite Hl2. cbn [bind].
  (* the encoder *)
  assert (Hden : forall n, CurveSpace.radius_max space
                           + INR n * Map.lane_width m <> 0).
  { intros n. pose proof (pos_INR n) as Hpos.
    pose proof (Rmult_le_pos _ _ Hpos Hwidth). lra. }
  set (self2 := set_navigation self1 (la :: las) (Road.mk n1 n2)
                  (np_fill (_navi_info self1) 0) (_goal_node_path self1)).
  destruct (get_info_for_checkpoint_returns space self2 0 la las ego1
              (la :: las) m)
    as (info1 & h1 & cp1 & E1 & L1);
    [reflexivity | simpl; congruence | intros _; apply Hden |].
  destruct (get_info_for_checkpoint_returns space self2 1 lb lbs ego1
              (la :: las) m)
    as (info2 & h2 & cp2 & E2 & L2);
    [reflexivity | simpl; congruence | intros _; apply Hden |].
  rewrite E1. cbn [bind].
  assert (Hfill : List.length (np_fill (_navi_info self1) 0) = 10%nat).
  { unfold np_fill. rewrite length_map, Hn1. exact Hnavi. }
  change (_navi_info self2) with (np_fill (_navi_info self1) 0).
  change (navigation_info_dim / 2)%nat with 5%nat.
  rewrite (np_set_head_returns _ _ Hfill L1). cbn [bind].
  rewrite E2. cbn [bind].
  assert (Hlen1 : List.length (info1 ++ skipn 5 (np_fill (_navi_info self1) 0))
                  = 10%nat).
  { rewrite length_app, length_skipn, Hfill, L1. reflexivity. }
  rewrite (np_set_tail_returns _ _ Hlen1 L2). cbn [bind].
  assert (Hlen2 : List.length
                    (firstn 5 (info1 ++ skipn 5 (np_fill (_navi_info self1) 0))
                     ++ info2) = navigation_info_dim).
  { rewrite length_app, length_firstn, Hlen1, L2. reflexivity. }
  remember (firstn 5 (info1 ++ skipn 5 (np_fill (_navi_info self1) 0))
            ++ info2) as navi2 eqn:Hnavi2.
  clear Hnavi2.
  change (_show_navi_info self2) with (_show_navi_info self1).
  change (_goal_node_path self2) with (_goal_node_path self1).
  assert (Hgoalok : exists goal,
             (if _show_navi_info self1
              then _ <- not_none AttributeError (_goal_node_path self1) ;;
                   Ok (Some (mark_position cp1))
              else Ok (_goal_node_path self1)) = Ok goal /\
             (_show_navi_info self1 = true -> goal <> None)).
  { destruct (_show_navi_info self1) eqn:Hshow.
    - rewrite Hs1 in Hshow. rewrite Hg1.
      destruct (_goal_node_path self) as [g|];
        [|exfalso; now apply Hgoal].
      simpl. eexists. split; [reflexivity|]. discriminate.
    - eexists. split; [reflexivity|]. discriminate. }
  destruct Hgoalok as (goal & -> & Hgoal'). cbn [bind].
  do 3 eexists. split; [reflexivity|].
  unfold drivable. simpl.
  split; [congruence|]. split; [exact Hc1|]. split; [exact Hlen|].
  split; [rewrite Forall_forall; exact Hroads|].
  split; [now exists w1|]. split; [eauto|].
  split; [exact Hlen2|].
  split; [exact Hgoal' | congruence].
Qed.

Lemma drive_drivable space m cps steps :
  0 < CurveSpace.radius_max space ->
  0 <= Map.lane_width m ->
  forall self,
    drivable m cps self ->
    exists s, drive space self steps = Ok s /\ drivable m cps s.
Proof.
  intros Hrad Hwidth.
  induction steps as [|[ego hits] steps IH]; intros self Hd.
  - exists self. split; [reflexivity | exact Hd].
  - destruct (drivable_step space m cps self ego hits Hrad Hwidth Hd)
      as (s1 & ego' & r & Hup & Hd1).
    destruct (IH s1 Hd1) as (s & Hrun & Hds).
    exists s. simpl. rewrite Hup. simpl. auto.
Qed.

(** X9: driving never raises.  Take a module in any state it can be in,
    with its map, a road network that answers with paths of its own, a
    positive maximal curve radius, a lane width that is not negative and
    the nearest-lane search off.  After a successful [set_route], any
    sequence of [update_navigation_localization] calls returns, whatever the
    vehicles and ray casts; the route stays, the window keeps its invariant
    and the feature vector its ten places. *)
Theorem drive_never_raises space self0 m a b self steps :
  reachable space self0 ->
  map self0 = Some m ->
  sound_shortest_path (Map.road_network m) ->
  0 < CurveSpace.radius_max space ->
  0 <= Map.lane_width m ->
  FORCE_CALCULATE self0 = false ->
  set_route self0 a b = Ok self ->
  exists cps s w,
    checkpoints self = Some cps /\
    drive space self steps = Ok s /\
    checkpoints s = Some cps /\
    _target_checkpoints_index s = Some w /\
    window_invariant cps w /\
    List.length (get_navi_info s) = navigation_info_dim.
Proof.
  intros Hreach Hm Hsound Hrad Hwidth Hforce Hroute.
  destruct (drivable_after_set_route space self0 m a b self
              Hreach Hm Hsound Hforce Hroute) as [cps Hd].
  destruct (drive_drivable space m cps steps Hrad Hwidth self Hd)
    as (s & Hrun & Hds).
  destruct Hd as (_ & Hc & _).
  destruct Hds as (_ & Hcs & _ & _ & (w & Hw & Hinv) & _ & Hnavi & _).
  exists cps, s, w. repeat (split; [assumption|]).
  split; [now apply tracker_invariant_window | exact Hnavi].
Qed.

Lemma drive_never_raises_witness :
  exists cps s w,
    checkpoints Example.routed = Some cps /\
    drive Example.space Example.routed
      [ (Example.vehicle_at 1 0,
         [(Example.ab0, ("A", "B", 0%nat)%string, 0)]);
        (Example.vehicle_at 31 0, []);
        (Example.vehicle_at 32 0,
         [(Example.bc1, ("B", "C", 1%nat)%string, 0)]) ] = Ok s /\
    checkpoints s = Some cps /\
    _target_checkpoints_index s = Some w /\
    window_invariant cps w /\
    List.length (get_navi_info s) = navigation_info_dim.
Proof.
  apply (drive_never_raises Example.space Example.fresh Example.map "A" "D").
  - apply reach_map, reach_init.
  - reflexivity.
  - exact example_network_sound.
  - simpl. lra.
  - simpl. lra.
  - reflexivity.
  - reflexivity.
Defined.

(** ** The navigation arrows *)

Lemma update_navi_arrow_cases (self : Arrows.t) (h0 h1 : R) :
  (Rabs (h0 - h1) < 1 / 100 /\
   _update_navi_arrow self [h0; h1] =
   Ok (if Arrows._is_showing self then Arrows.mk false false false
       else self)) \/
  (1 / 100 <= Rabs (h0 - h1) /\ 0 <= sin (h0 - h1) /\
   _update_navi_arrow self [h0; h1] = Ok (Arrows.mk true true false)) \/
  (1 / 100 <= Rabs (h0 - h1) /\ sin (h0 - h1) < 0 /\
   _update_navi_arrow self [h0; h1] = Ok (Arrows.mk true false true)).
Proof.
  assert (Hcross : cos h1 * sin h0 - sin h1 * cos h0 = sin (h0 - h1))
    by (rewrite sin_minus; ring).
  remember (_update_navi_arrow self [h0; h1]) as r eqn:Hr.
  unfold _update_navi_arrow in Hr. simpl in Hr. rewrite Hcross in Hr.
  unfold Rltb in Hr.
  destruct (Rlt_dec (Rabs (h0 - h1)) (1 / 100)) as [Hnear|Hfar].
  - left. split; [exact Hnear|]. subst r.
    destruct (Arrows._is_showing self); reflexivity.
  - right. apply Rnot_lt_le in Hfar.
    destruct (Rlt_dec (sin (h0 - h1)) 0) as [Hneg|Hpos].
    + right. split; [exact Hfar|]. split; [exact Hneg|]. subst r.
      destruct self as [[] [] []]; reflexivity.
    + left. apply Rnot_lt_le in Hpos. split; [exact Hfar|].
      split; [exact Hpos|]. subst r.
      destruct self as [[] [] []]; reflexivity.
Qed.

(** X10: what [_update_navi_arrow] shows.  When the two lane headings
    differ by less than 0.01 no arrow is left attached if arrows were
    showing, and nothing changes if they were not.  Otherwise
    [_is_showing] is set and exactly one arrow is attached: the left one
    when [sin(lane_0_heading - lane_1_heading) >= 0], which is the sign of
    the cross product the code takes, and the right one otherwise. *)
Theorem update_navi_arrow_shows (self : Arrows.t) (h0 h1 : R) :
  exists self',
    _update_navi_arrow self [h0; h1] = Ok self' /\
    (Rabs (h0 - h1) < 1 / 100 ->
     (Arrows._is_showing self = true -> self' = Arrows.mk false false false) /\
     (Arrows._is_showing self = false -> self' = self)) /\
    (1 / 100 <= Rabs (h0 - h1) ->
     Arrows._is_showing self' = true /\
     Arrows._left_arrow self' = negb (Arrows._right_arrow self') /\
     (Arrows._left_arrow self' = true <-> 0 <= sin (h0 - h1))).
Proof.
  destruct (update_navi_arrow_cases self h0 h1)
    as [[Hnear ->] | [(Hfar & Hsin & ->) | (Hfar & Hsin & ->)]];
    eexists; (split; [reflexivity|]); split; intros H; try lra.
  - split; intros ->; reflexivity.
  - simpl. repeat split; auto.
  - simpl. repeat split; auto; [discriminate | lra].
Qed.

(** X11: from the state [__init__] leaves (both arrows attached), after one
    or more calls of [_update_navi_arrow] either arrows are showing and
    exactly one of the two is attached, or none is showing and none is
    attached; both arrows are never attached together again. *)
Theorem arrows_one_or_none (headings : list (R * R)) :
  headings <> [] ->
  exists self,
    run_arrows Arrows.initial headings = Ok self /\
    (self = Arrows.mk true true false \/
     self = Arrows.mk true false true \/
     self = Arrows.mk false false false).
Proof.
  assert (Hgood : forall hs self,
             self = Arrows.mk true true false \/
             self = Arrows.mk true false true \/
             self = Arrows.mk false false false ->
             exists self',
               run_arrows self hs = Ok self' /\
               (self' = Arrows.mk true true false \/
                self' = Arrows.mk true false true \/
                self' = Arrows.mk false false false)).
  { induction hs as [|[h0 h1] hs IH]; intros self Hself.
    - exists self. split; [reflexivity | exact Hself].
    - simpl run_arrows.
      destruct (update_navi_arrow_cases self h0 h1)
        as [[_ ->] | [(_ & _ & ->) | (_ & _ & ->)]]; cbn [bind];
        apply IH; auto.
      destruct Hself as [-> | [-> | ->]]; simpl; auto. }
  destruct headings as [|[h0 h1] hs]; [intros H; now elim H|]. intros _.
  simpl run_arrows.
  destruct (update_navi_arrow_cases Arrows.initial h0 h1)
    as [[_ ->] | [(_ & _ & ->) | (_ & _ & ->)]]; cbn [bind];
    apply Hgood; simpl; auto.
Qed.

Lemma arrows_one_or_none_witness :
  exists self,
    run_arrows Arrows.initial [(0, 0); (PI / 2, 0)] = Ok self /\
    (self = Arrows.mk true true false \/
     self = Arrows.mk true false true \/
     self = Arrows.mk false false false).
Proof.
  apply (arrows_one_or_none [(0, 0); (PI / 2, 0)]). discriminate.
Defined.

(** ** Choosing a destination *)

Lemma remove_first_spec (socket : Socket.t) (sockets : list Socket.t) :
  In socket sockets ->
  S (List.length (remove_first socket sockets)) = List.length sockets /\
  (forall s, In s (remove_first socket sockets) -> In s sockets) /\
  (forall s, In s sockets ->
             In s (remove_first socket sockets) \/
             Socket.uid s = Socket.uid socket).
Proof.
  induction sockets as [|x rest IH]; intros Hin; [contradiction|].
  simpl. unfold Socket.eqb.
  destruct (Nat.eqb (Socket.uid x) (Socket.uid socket)) eqn:E.
  - apply Nat.eqb_eq in E. split; [reflexivity|].
    split; [intros s Hs; now right|].
    intros s [<- | Hs]; [now right | now left].
  - destruct Hin as [-> | Hin]; [now rewrite Nat.eqb_refl in E|].
    destruct (IH Hin) as (Hlen & Hsub & Hcov).
    split; [simpl; now rewrite Hlen|].
    split.
    + intros s [<- | Hs]; [now left | right; now apply Hsub].
    + intros s [<- | Hs]; [left; now left|].
      destruct (Hcov s Hs) as [H | H]; [left; now right | now right].
Qed.

(** The loop from a list [sockets] that is what is left of [all]: what was
    removed is at the start node. *)
Lemma choose_socket_spec world start fuel :
  forall all sockets,
    sockets_distinct all ->
    (forall s, In s sockets -> In s all) ->
    (forall s, In s all ->
               In s sockets \/ Socket.is_socket_node s start = true) ->
    (List.length sockets < fuel)%nat ->
    (exists socket,
        choose_socket fuel world start sockets = Some (Ok socket) /\
        In socket all /\ Socket.is_socket_node socket start = false) \/
    (choose_socket fuel world start sockets = Some (Raise ValueError) /\
     forall s, In s all -> Socket.is_socket_node s start = true).
Proof.
  induction fuel as [|fuel IH]; intros all sockets Hid Hsub Hcov Hfuel;
    [lia|].
  destruct sockets as [|first rest].
  - right. split; [reflexivity|].
    intros s Hs. destruct (Hcov s Hs) as [[] | H]; exact H.
  - cbn [choose_socket].
    set (sockets := first :: rest) in *.
    set (socket := nth _ sockets first).
    assert (Hin : In socket sockets).
    { apply nth_In. apply Nat.mod_upper_bound. discriminate. }
    destruct (Socket.is_socket_node socket start) eqn:Hnode; cbn [negb].
    + destruct (remove_first_spec socket sockets Hin) as (Hlen & Hsub' & Hcov').
      destruct (List.length (remove_first socket sockets) =? 0)%nat eqn:Hz.
      * right. split; [reflexivity|]. apply Nat.eqb_eq in Hz.
        intros s Hs. destruct (Hcov s Hs) as [Hs' | H]; [|exact H].
        destruct (Hcov' s Hs') as [Hrem | Huid].
        -- destruct (remove_first socket sockets); [destruct Hrem | discriminate].
        -- rewrite (Hid s socket Hs (Hsub _ Hin) Huid). exact Hnode.
      * apply IH; [exact Hid | | | lia].
        -- intros s Hs. apply Hsub, Hsub', Hs.
        -- intros s Hs. destruct (Hcov s Hs) as [Hs' | H]; [|now right].
           destruct (Hcov' s Hs') as [Hrem | Huid]; [now left|].
           right. rewrite (Hid s socket Hs (Hsub _ Hin) Huid). exact Hnode.
    + left. exists socket. split; [reflexivity|].
      split; [apply Hsub, Hin | exact Hnode].
Qed.

(** X12: the loop of [update] that draws a destination socket ends within
    one round per socket, whatever indices are drawn.  It ends with a
    socket of the list that is not at the start node if there is one, and
    with [ValueError] exactly when every socket of the list is at the start
    node (an empty list included). *)
Theorem choose_socket_outcome world start_road_node sockets :
  sockets_distinct sockets ->
  exists outcome,
    choose_socket (S (List.length sockets)) world start_road_node sockets
      = Some outcome /\
    (forall socket,
        outcome = Ok socket ->
        In socket sockets /\
        Socket.is_socket_node socket start_road_node = false) /\
    (raises outcome <->
     forall s, In s sockets ->
               Socket.is_socket_node s start_road_node = true) /\
    (raises outcome -> outcome = Raise ValueError).
Proof.
  intros Hid.
  destruct (choose_socket_spec world start_road_node
              (S (List.length sockets)) sockets sockets Hid)
    as [(socket & Hrun & Hin & Hnode) | [Hrun Hall]];
    [auto | auto | lia | |].
  - exists (Ok socket). split; [exact Hrun|]. split.
    + intros s [= <-]. auto.
    + split; [|intros [e He]; discriminate]. split.
      * intros [e He]. discriminate.
      * intros Hall. rewrite (Hall socket Hin) in Hnode. discriminate.
  - exists (Raise ValueError). split; [exact Hrun|].
    split; [intros s H; discriminate|].
    split; [|reflexivity]. split; [intros _; exact Hall|].
    intros _. now exists ValueError.
Qed.

Lemma example_sockets_distinct :
  sockets_distinct [ExampleWorld.entry; ExampleWorld.exit].
Proof.
  intros s s' [<- | [<- | []]] [<- | [<- | []]] H;
    try reflexivity; discriminate H.
Qed.

Lemma choose_socket_outcome_witness :
  choose_socket 3 ExampleWorld.world "A"
    [ExampleWorld.entry; ExampleWorld.exit]
  = Some (Ok ExampleWorld.exit).
Proof.
  destruct (choose_socket_outcome ExampleWorld.world "A"
              [ExampleWorld.entry; ExampleWorld.exit]
              example_sockets_distinct)
    as (outcome & Hrun & Hok & _).
  simpl in Hrun. injection Hrun as <-. reflexivity.
Defined.

(** X13: [update] always comes to an end, within one round of its loop per
    socket.  Given a destination it stores the map and plans the route from
    the start node of the lane index, or from [FirstBlock.NODE_1] when that
    is [None].  Given none and returning, it has planned the route to the
    end node of the positive road of a socket of the last block (of the
    negative road of a socket of the first block when the current road is
    negative), a socket that is not at the start node; and the module then
    holds the map. *)
Theorem update_destination world self map current_lane_index final_road_node :
  (forall sockets, In sockets (BlockMap.blocks map) ->
                   sockets_distinct sockets) ->
  let start_road_node :=
    match fst (fst current_lane_index) with
    | Some node => node
    | None => World.NODE_1 world
    end in
  exists outcome,
    update world self map current_lane_index final_road_node = Some outcome /\
    (forall dest,
        final_road_node = Some dest ->
        outcome =
        set_route (with_map self (BlockMap.map map)) start_road_node dest) /\
    (forall self',
        final_road_node = None ->
        outcome = Ok self' ->
        exists negative sockets socket,
          World.is_negative_road world (fst (fst current_lane_index))
            (snd (fst current_lane_index)) = Ok negative /\
          (if negative
           then nth_error (BlockMap.blocks map) 0 = Some sockets
           else nth_error (BlockMap.blocks map)
                  (List.length (BlockMap.blocks map) - 1) = Some sockets) /\
          In socket sockets /\
          Socket.is_socket_node socket start_road_node = false /\
          set_route (with_map self (BlockMap.map map)) start_road_node
            (if negative
             then Road.end_node (Socket.negative_road socket)
             else Road.end_node (Socket.positive_road socket))
          = Ok self' /\
          RoutingLocalizationModule.map self' = Some (BlockMap.map map)).
Proof.
  intros Hid start. unfold update. fold start.
  destruct final_road_node as [dest|].
  - eexists. split; [reflexivity|]. split; [|discriminate].
    intros d [= <-]. reflexivity.
  - destruct (World.is_negative_road world _ _) as [negative|e] eqn:Hneg.
    2:{ eexists. split; [reflexivity|]. split; discriminate. }
    set (pick := if negative then Py.getitem (BlockMap.blocks map) 0
                 else Py.getitem_neg (BlockMap.blocks map) 1).
    assert (Hpick : forall sockets,
               pick = Ok sockets ->
               In sockets (BlockMap.blocks map) /\
               if negative
               then nth_error (BlockMap.blocks map) 0 = Some sockets
               else nth_error (BlockMap.blocks map)
                      (List.length (BlockMap.blocks map) - 1) = Some sockets).
    { intros sockets. unfold pick, Py.getitem_neg, Py.getitem.
      destruct negative.
      - destruct (nth_error (BlockMap.blocks map) 0) eqn:E; [|discriminate].
        intros [= ->]. split; [eapply nth_error_In; exact E | reflexivity].
      - destruct (1 <=? List.length (BlockMap.blocks map))%nat; [|discriminate].
        destruct (nth_error (BlockMap.blocks map) _) eqn:E; [|discriminate].
        intros [= ->]. split; [eapply nth_error_In; exact E | reflexivity]. }
    destruct pick as [sockets|e] eqn:Hp.
    2:{ eexists. split; [reflexivity|]. split; discriminate. }
    destruct (Hpick sockets eq_refl) as [Hin Hnth].
    destruct (choose_socket_spec world start (S (List.length sockets))
                sockets sockets (Hid sockets Hin))
      as [(socket & Hrun & Hsock & Hnode) | [Hrun Hall]];
      [auto | auto | lia | |]; rewrite Hrun.
    + eexists. split; [reflexivity|]. split; [discriminate|].
      intros self' _ Hok. exists negative, sockets, socket.
      split; [reflexivity|]. split; [exact Hnth|].
      split; [exact Hsock|]. split; [exact Hnode|].
      split; [exact Hok|].
      apply set_route_inv in Hok.
      destruct Hok as (m & cps & n0 & l2 & fls & refs & n1 & fl & Hm & _ & _
                       & _ & _ & _ & _ & _ & _ & Hm' & _).
      simpl in Hm. congruence.
    + eexists. split; [reflexivity|]. split; discriminate.
Qed.

Lemma update_destination_witness :
  update ExampleWorld.world (__init__ false) ExampleWorld.block_map
    (Some "A", "B", 0%nat)%string None
  = Some (Ok Example.routed).
Proof.
  destruct (update_destination ExampleWorld.world (__init__ false)
              ExampleWorld.block_map (Some "A", "B", 0%nat)%string None)
    as (outcome & Hrun & _).
  - intros sockets [<- | [<- | []]].
    + intros s s' [<- | []] [<- | []] _. reflexivity.
    + exact example_sockets_distinct.
  - rewrite Hrun. f_equal.
    assert (E : update ExampleWorld.world (__init__ false)
                  ExampleWorld.block_map (Some "A", "B", 0%nat)%string None
                = Some (Ok Example.routed)) by reflexivity.
    rewrite E in Hrun. now injection Hrun as <-.
Defined.

(** * The observation of the multi-agent roundabout *)

Lemma Rleb_true (a b : R) : a <= b -> Rleb a b = true.
Proof. intros H. unfold Rleb. destruct (Rle_dec a b); [reflexivity | contradiction]. Qed.

Lemma Rleb_false (a b : R) : b < a -> Rleb a b = false.
Proof. intros H. unfold Rleb. destruct (Rle_dec a b); [lra | reflexivity]. Qed.

Lemma mapi_length {A B : Type} (f : nat -> A -> B) (l : list A) :
  List.length (mapi f l) = List.length l.
Proof.
  unfold mapi. rewrite length_map, length_combine, length_seq.
  apply Nat.min_id.
Qed.

Lemma mapi_Forall {A B : Type} (f : nat -> A -> B) (P : B -> Prop)
  (l : list A) :
  (forall i a, In a l -> P (f i a)) -> Forall P (mapi f l).
Proof.
  intros H. unfold mapi. apply Forall_forall. intros b Hb.
  apply in_map_iff in Hb. destruct Hb as ([i a] & <- & Hin).
  apply in_combine_r in Hin. now apply H.
Qed.

Lemma np_clip_unit (x : R) : in_unit_interval (np_clip x 0 1).
Proof.
  unfold in_unit_interval, np_clip. split.
  - apply Rmin_glb; [apply Rmax_r | lra].
  - apply Rmin_r.
Qed.

(** With [dropout_prob <= 1] the noise is added and the points keep their
    number, and their range if they were in [0, 1]. *)
Lemma add_noise_spec (normal uniform : nat -> R) (points : list R)
  (gaussian_noise dropout_prob : R) :
  dropout_prob <= 1 ->
  exists noisy,
    _add_noise_to_cloud_points normal uniform points gaussian_noise
      dropout_prob = Ok noisy /\
    List.length noisy = List.length points /\
    (Forall in_unit_interval points -> Forall in_unit_interval noisy).
Proof.
  intros Hle. unfold _add_noise_to_cloud_points.
  set (noised := if Rltb 0 gaussian_noise
                 then mapi (fun i p => np_clip (p + normal i) 0 1) points
                 else points).
  assert (Hlen : List.length noised = List.length points).
  { unfold noised. destruct (Rltb 0 gaussian_noise);
      [apply mapi_length | reflexivity]. }
  assert (Hunit : Forall in_unit_interval points ->
                  Forall in_unit_interval noised).
  { intros H. unfold noised. destruct (Rltb 0 gaussian_noise); [|exact H].
    apply mapi_Forall. intros i a _. apply np_clip_unit. }
  clearbody noised.
  rewrite (Rleb_true _ _ Hle). cbn [negb].
  destruct (Rltb 0 dropout_prob).
  - eexists. split; [reflexivity|]. split; [now rewrite mapi_length|].
    intros H. specialize (Hunit H). rewrite Forall_forall in Hunit.
    apply mapi_Forall. intros i a Ha.
    destruct (Rltb (uniform i) dropout_prob);
      [unfold in_unit_interval; lra | now apply Hunit].
  - eexists. split; [reflexivity|]. auto.
Qed.

(** X14: [_add_noise_to_cloud_points] raises (an [AssertionError]) exactly
    when [dropout_prob > 1].  When it returns, there are as many points as
    it was given; they all lie in [0, 1] if noise was added
    ([gaussian_noise > 0]) or if the points given did; and they are the
    points given, untouched, when neither noise nor dropout is asked
    for. *)
Theorem add_noise_to_cloud_points_outcome
  (normal uniform : nat -> R) (points : list R)
  (gaussian_noise dropout_prob : R) :
  let outcome :=
    _add_noise_to_cloud_points normal uniform points gaussian_noise
      dropout_prob in
  (raises outcome <-> 1 < dropout_prob) /\
  (raises outcome -> outcome = Raise AssertionError) /\
  (forall noisy,
      outcome = Ok noisy ->
      List.length noisy = List.length points /\
      (0 < gaussian_noise \/ Forall in_unit_interval points ->
       Forall in_unit_interval noisy) /\
      (gaussian_noise <= 0 -> dropout_prob <= 0 -> noisy = points)).
Proof.
  intros outcome.
  set (noised := if Rltb 0 gaussian_noise
                 then mapi (fun i p => np_clip (p + normal i) 0 1) points
                 else points).
  assert (Hlen : List.length noised = List.length points).
  { unfold noised. destruct (Rltb 0 gaussian_noise);
      [apply mapi_length | reflexivity]. }
  assert (Hunit : 0 < gaussian_noise \/ Forall in_unit_interval points ->
                  Forall in_unit_interval noised).
  { intros H. unfold noised. unfold Rltb.
    destruct (Rlt_dec 0 gaussian_noise) as [Hpos|Hneg].
    - apply mapi_Forall. intros i a _. apply np_clip_unit.
    - destruct H as [H|H]; [contradiction | exact H]. }
  assert (Hsame : gaussian_noise <= 0 -> noised = points).
  { intros H. unfold noised. now rewrite Rltb_false. }
  assert (Hout : outcome =
                 if Rltb 0 dropout_prob then
                   if negb (Rleb dropout_prob 1) then Raise AssertionError
                   else Ok (mapi (fun i p => if Rltb (uniform i) dropout_prob
                                             then 0 else p) noised)
                 else Ok noised) by reflexivity.
  clearbody outcome noised.
  destruct (Rlt_dec 0 dropout_prob) as [Hdrop|Hnodrop].
  - rewrite (Rltb_true _ _ Hdrop) in Hout.
    destruct (Rle_dec dropout_prob 1) as [Hle|Hgt].
    + rewrite (Rleb_true _ _ Hle) in Hout. cbn [negb] in Hout. subst outcome.
      split; [split; [intros [e He]; discriminate | lra]|].
      split; [intros [e He]; discriminate|].
      intros noisy [= <-]. split; [now rewrite mapi_length|].
      split; [|intros _ H; lra].
      intros H. specialize (Hunit H). rewrite Forall_forall in Hunit.
      apply mapi_Forall. intros i a Ha.
      destruct (Rltb (uniform i) dropout_prob);
        [unfold in_unit_interval; lra | now apply Hunit].
    + apply Rnot_le_lt in Hgt.
      rewrite (Rleb_false _ _ Hgt) in Hout. cbn [negb] in Hout. subst outcome.
      split; [split; [intros _; lra | intros _; now exists AssertionError]|].
      split; [reflexivity | discriminate].
  - apply Rnot_lt_le in Hnodrop.
    rewrite (Rltb_false _ _ Hnodrop) in Hout. subst outcome.
    split; [split; [intros [e He]; discriminate | lra]|].
    split; [intros [e He]; discriminate|].
    intros noisy [= <-]. auto.
Qed.

(** ** Sorting by distance *)

Section SortBy.
Context {A : Type}.
Variable key : A -> R.








End SortBy.



Lemma concat_blocks_length {A B : Type} (f : A -> list B) (l : list A)
  (len : nat) :
  (forall a, In a l -> List.length (f a) = len) ->
  List.length (concat (List.map f l)) = (List.length l * len)%nat.
Proof.
  induction l as [|a rest IH]; intros H; [reflexivity|].
  simpl. rewrite length_app, (H a (or_introl eq_refl)), IH; [reflexivity|].
  intros b Hb. apply H. now right.
Qed.

Lemma concat_blocks_Forall {A B : Type} (f : A -> list B) (P : B -> Prop)
  (l : list A) :
  (forall a, In a l -> Forall P (f a)) -> Forall P (concat (List.map f l)).
Proof.
  induction l as [|a rest IH]; intros H; simpl; [constructor|].
  apply Forall_app. split; [apply H; now left|].
  apply IH. intros b Hb. apply H. now right.
Qed.

Lemma nearest_others_length {V : Type} (position : V -> vec2)
  (vehicle : V) (num_others : Z) (surrounding : list (@Detected V)) :
  List.length (nearest_others position vehicle num_others surrounding)
  = Z.to_nat num_others.
Proof.
  unfold nearest_others. rewrite length_firstn, length_app, repeat_length.
  lia.
Qed.

(** X16: [observe] fits [observation_space].  For an observation object as
    [__init__] builds it, a state observation of [state_length] numbers for
    every vehicle, a vehicle with a lidar that gives [num_lasers] cloud
    points, [num_lasers > 0], [distance > 0], [num_others >= 0] and
    [dropout_prob <= 1]: [observe] returns a vector whose length is the
    first dimension of the shape [observation_space] gives,
    [state_length + num_lasers + num_others * state_length]; and if the
    state observations and the cloud points lie in [0, 1], so does every
    element of the vector. *)
Theorem observe_fits_space {V : Type} (position : V -> vec2)
  (lidar : V -> option (@Lidar V)) (state_observe : V -> list R)
  (normal uniform : nat -> R) (cfg : LidarConfig.t) (shape : list Z)
  (self : @Observation) (vehicle : V) (l : @Lidar V) :
  observation_init cfg shape = Ok self ->
  (forall v, Z.of_nat (List.length (state_observe v)) = state_length self) ->
  lidar vehicle = Some l ->
  Z.of_nat (List.length (get_cloud_points l)) = LidarConfig.num_lasers cfg ->
  (0 < LidarConfig.num_lasers cfg)%Z ->
  0 < LidarConfig.distance cfg ->
  (0 <= LidarConfig.num_others cfg)%Z ->
  LidarConfig.dropout_prob cfg <= 1 ->
  exists o dim rest,
    observe position lidar state_observe normal uniform self vehicle = Ok o /\
    observation_space self = Ok (dim :: rest) /\
    Z.of_nat (List.length o) = dim /\
    dim = (state_length self + LidarConfig.num_lasers cfg
           + LidarConfig.num_others cfg * state_length self)%Z /\
    ((forall v, Forall in_unit_interval (state_observe v)) ->
     Forall in_unit_interval (get_cloud_points l) ->
     Forall in_unit_interval o).
Proof.
  intros Hinit Hstate Hlidar Hcloud Hlasers Hdist Hothers Hdrop.
  unfold observation_init in Hinit.
  destruct shape as [|s0 rest]; [discriminate|].
  simpl in Hinit. injection Hinit as <-. simpl in Hstate.
  pose proof (add_noise_spec normal uniform (get_cloud_points l)
                (LidarConfig.gaussian_noise cfg)
                (LidarConfig.dropout_prob cfg) Hdrop)
    as (noisy & Hnoisy & Hnlen & Hnunit).
  set (others :=
         if (0 <? LidarConfig.num_others cfg)%Z
         then concat
                (List.map
                   (fun tmp_v : option Detected =>
                      match tmp_v with
                      | Some v => state_observe (get_vehicle v)
                      | None => repeat 0 (Z.to_nat s0)
                      end)
                   (nearest_others position vehicle
                      (LidarConfig.num_others cfg)
                      (get_surrounding_vehicles l)))
         else []).
  assert (Hblock : forall tmp_v : option (@Detected V),
             List.length
               match tmp_v with
               | Some v => state_observe (get_vehicle v)
               | None => repeat 0 (Z.to_nat s0)
               end = Z.to_nat s0).
  { intros [v|]; [rewrite <- (Hstate (get_vehicle v)); lia
                 | apply repeat_length]. }
  assert (Holen : Z.of_nat (List.length others)
                  = (LidarConfig.num_others cfg * s0)%Z).
  { unfold others. destruct (0 <? LidarConfig.num_others cfg)%Z eqn:E.
    - rewrite (concat_blocks_length _ _ (Z.to_nat s0))
        by (intros a _; apply Hblock).
      rewrite nearest_others_length.
      pose proof (Hstate vehicle). nia.
    - apply Z.ltb_ge in E.
      assert (H0 : LidarConfig.num_others cfg = 0%Z) by lia.
      rewrite H0. reflexivity. }
  exists (state_observe vehicle ++ others ++ noisy),
    (s0 + (LidarConfig.num_lasers cfg + LidarConfig.num_others cfg * s0))%Z,
    rest.
  split.
  { unfold observe. simpl. rewrite Hlidar. fold others.
    rewrite Hnoisy. reflexivity. }
  split.
  { unfold observation_space. simpl.
    replace (0 <? LidarConfig.num_lasers cfg)%Z with true
      by (symmetry; now apply Z.ltb_lt).
    rewrite (Rltb_true _ _ Hdist). reflexivity. }
  split.
  { rewrite !length_app, !Nat2Z.inj_add, Holen, Hnlen, Hcloud.
    rewrite (Hstate vehicle). lia. }
  split; [simpl; lia|].
  intros Hsunit Hcunit.
  apply Forall_app. split; [apply Hsunit|].
  apply Forall_app. split; [|now apply Hnunit].
  unfold others. destruct (0 <? LidarConfig.num_others cfg)%Z; [|constructor].
  apply concat_blocks_Forall. intros [v|] _; [apply Hsunit|].
  apply Forall_forall. intros x Hx. apply repeat_spec in Hx. subst x.
  unfold in_unit_interval. lra.
Qed.

Lemma observe_fits_space_witness :
  exists o,
    observe ExampleObservation.position ExampleObservation.lidar
      ExampleObservation.state_observe (fun _ => 0) (fun _ => 0)
      ExampleObservation.observation 0%nat = Ok o /\
    Z.of_nat (List.length o) = 11%Z.
Proof.
  destruct (observe_fits_space ExampleObservation.position
              ExampleObservation.lidar ExampleObservation.state_observe
              (fun _ => 0) (fun _ => 0) ExampleObservation.lidar_config
              [3%Z] ExampleObservation.observation 0%nat
              (mkLidar [mkDetected (3, 4) 7%nat] [1 / 2; 1 / 4]))
    as (o & dim & rest & Hobs & _ & Hlen & Hdim & _).
  - reflexivity.
  - intros v. reflexivity.
  - reflexivity.
  - reflexivity.
  - reflexivity.
  - simpl. lra.
  - simpl. lia.
  - simpl. lra.
  - exists o. split; [exact Hobs|]. rewrite Hlen, Hdim. reflexivity.
Defined.

(** * The feature encoder, further *)

(** X17: when [_get_info_for_checkpoint] raises.  For a module with its map
    and reference lanes, the call raises exactly in two cases: [lanes] is
    empty ([IndexError]), or the first lane is circular and
    [max_curve_radius + lane_count * lane_width] is zero
    ([ZeroDivisionError]).  Otherwise it returns five scalars. *)
Theorem get_info_for_checkpoint_raises
  space self lanes_id lanes ego_vehicle refs m :
  current_ref_lanes self = Some refs ->
  map self = Some m ->
  let denom :=
    CurveSpace.radius_max space + INR (List.length refs) * Map.lane_width m in
  let outcome :=
    _get_info_for_checkpoint space self lanes_id lanes ego_vehicle in
  (lanes = [] -> outcome = Raise IndexError) /\
  (forall ref_lane rest,
      lanes = ref_lane :: rest ->
      Lane.circular ref_lane <> None -> denom = 0 ->
      outcome = Raise ZeroDivisionError) /\
  (forall ref_lane rest,
      lanes = ref_lane :: rest ->
      Lane.circular ref_lane = None \/ denom <> 0 ->
      exists info h cp,
        outcome = Ok (info, h, cp) /\ List.length info = 5%nat).
Proof.
  intros Hrefs Hm denom outcome. split; [|split].
  - intros ->. reflexivity.
  - intros ref_lane rest -> Hcirc Hden.
    unfold outcome, _get_info_for_checkpoint, get_current_lane_num,
      get_current_lane_width.
    rewrite Hrefs, Hm. simpl.
    destruct (Vehicle.projection ego_vehicle _) as [ph ps].
    unfold bend_of. destruct (Lane.circular ref_lane) as [c|];
      [|now elim Hcirc].
    fold denom. destruct (Req_dec_T denom 0); [reflexivity | contradiction].
  - intros ref_lane rest -> Hok.
    apply (get_info_for_checkpoint_returns space self lanes_id ref_lane rest
             ego_vehicle refs m Hrefs Hm).
    intros Hcirc. destruct Hok as [Hnone | Hden]; [contradiction | exact Hden].
Qed.

Lemma get_info_for_checkpoint_raises_witness :
  _get_info_for_checkpoint Example.space Example.routed 0 []
    (Example.vehicle_at 1 0) = Raise IndexError /\
  exists info h cp,
    _get_info_for_checkpoint Example.space Example.routed 1
      [Example.bc0; Example.bc1] (Example.vehicle_at 1 0)
    = Ok (info, h, cp) /\ List.length info = 5%nat.
Proof.
  split.
  - destruct (get_info_for_checkpoint_raises Example.space Example.routed 0
                [] (Example.vehicle_at 1 0) [Example.ab0; Example.ab1]
                Example.map eq_refl eq_refl) as [Hempty _].
    now apply Hempty.
  - destruct (get_info_for_checkpoint_raises Example.space Example.routed 1
                [Example.bc0; Example.bc1] (Example.vehicle_at 1 0)
                [Example.ab0; Example.ab1] Example.map eq_refl eq_refl)
      as (_ & _ & Hok).
    apply (Hok Example.bc0 [Example.bc1] eq_refl). right. simpl. lra.
Defined.

Lemma dir_vec_to_bounded (check_point position : vec2) :
  norm (fst (dir_vec_to check_point position))
       (snd (dir_vec_to check_point position)) <= NAVI_POINT_DIST.
Proof.
  unfold dir_vec_to. cbn [fst snd].
  set (dx := fst check_point - fst position).
  set (dy := snd check_point - snd position).
  unfold Rltb. destruct (Rlt_dec NAVI_POINT_DIST (norm dx dy)) as [Hfar|Hnear].
  - cbn [fst snd]. unfold NAVI_POINT_DIST in *.
    rewrite norm_rescaled; lra.
  - cbn [fst snd]. lra.
Qed.

Lemma Rabs_le_bounds (x b : R) : Rabs x <= b -> - b <= x <= b.
Proof. unfold Rabs. destruct (Rcase_abs x); lra. Qed.

Lemma clip_inside (x : R) : 0 <= x <= 1 -> clip x 0 1 = x.
Proof.
  intros [H0 H1]. unfold clip.
  rewrite Rmax_left by exact H0. now rewrite Rmin_left.
Qed.

(** X18: the two projected features are never cut by the clip.  For a
    vehicle whose projection does not lengthen a vector (neither component
    exceeds the vector's magnitude), the first two scalars
    [_get_info_for_checkpoint] returns are exactly
    [(proj_heading / NAVI_POINT_DIST + 1) / 2] and
    [(proj_side / NAVI_POINT_DIST + 1) / 2], so the projections of the
    clamped direction vector can be read back from them as
    [NAVI_POINT_DIST * (2 * scalar - 1)]; and both projections are at most
    [NAVI_POINT_DIST] in absolute value. *)
Theorem projected_features_exact
  space self lanes_id lanes ego_vehicle info lanes_heading check_point :
  (forall v,
      Rabs (fst (Vehicle.projection ego_vehicle v)) <= norm (fst v) (snd v) /\
      Rabs (snd (Vehicle.projection ego_vehicle v)) <= norm (fst v) (snd v)) ->
  _get_info_for_checkpoint space self lanes_id lanes ego_vehicle
    = Ok (info, lanes_heading, check_point) ->
  let proj :=
    Vehicle.projection ego_vehicle
      (dir_vec_to check_point (Vehicle.position ego_vehicle)) in
  Rabs (fst proj) <= NAVI_POINT_DIST /\
  Rabs (snd proj) <= NAVI_POINT_DIST /\
  exists s_heading s_side rest,
    info = s_heading :: s_side :: rest /\
    s_heading = (fst proj / NAVI_POINT_DIST + 1) / 2 /\
    s_side = (snd proj / NAVI_POINT_DIST + 1) / 2 /\
    NAVI_POINT_DIST * (2 * s_heading - 1) = fst proj /\
    NAVI_POINT_DIST * (2 * s_side - 1) = snd proj.
Proof.
  intros Hproj Hinfo proj.
  pose proof (dir_vec_to_bounded check_point (Vehicle.position ego_vehicle))
    as Hbound.
  destruct (Hproj (dir_vec_to check_point (Vehicle.position ego_vehicle)))
    as [H1 H2]. fold proj in H1, H2.
  assert (Hh : Rabs (fst proj) <= NAVI_POINT_DIST) by lra.
  assert (Hs : Rabs (snd proj) <= NAVI_POINT_DIST) by lra.
  split; [exact Hh|]. split; [exact Hs|].
  apply get_info_for_checkpoint_inv in Hinfo.
  destruct Hinfo as (ref_lane & n & w & b & d & an & _ & _ & _ & _ & _ & ->).
  fold proj. unfold encode.
  unfold NAVI_POINT_DIST in *.
  apply Rabs_le_bounds in Hh. apply Rabs_le_bounds in Hs.
  do 3 eexists. split; [reflexivity|].
  rewrite !clip_inside by lra.
  repeat split; field.
Qed.

Lemma projected_features_exact_witness :
  exists info h cp s_heading s_side rest,
    _get_info_for_checkpoint Example.space Example.routed 1
      [Example.bc0; Example.bc1] (Example.vehicle_at 1 0)
    = Ok (info, h, cp) /\
    info = s_heading :: s_side :: rest /\
    NAVI_POINT_DIST * (2 * s_heading - 1) =
    fst (dir_vec_to cp (1, 0)).
Proof.
  destruct (get_info_for_checkpoint_returns Example.space Example.routed 1
              Example.bc0 [Example.bc1] (Example.vehicle_at 1 0)
              [Example.ab0; Example.ab1] Example.map eq_refl eq_refl)
    as (info & h & cp & Hinfo & _); [intros _; simpl; lra|].
  destruct (projected_features_exact Example.space Example.routed 1
              [Example.bc0; Example.bc1] (Example.vehicle_at 1 0) info h cp)
    as (_ & _ & sh & ss & rest & Hi & _ & _ & Hback & _).
  - intros [x y]. simpl. unfold norm. split.
    + rewrite <- sqrt_Rsqr_abs. apply sqrt_le_1_alt. unfold Rsqr. nra.
    + rewrite <- sqrt_Rsqr_abs. apply sqrt_le_1_alt. unfold Rsqr. nra.
  - exact Hinfo.
  - exists info, h, cp, sh, ss, rest.
    split; [exact Hinfo|]. split; [exact Hi | exact Hback].
Defined.

(** * Witnesses of the cases *)

Lemma update_navi_arrow_shows_witness :
  exists self',
    _update_navi_arrow Arrows.initial [PI / 2; 0] = Ok self' /\
    Arrows._is_showing self' = true /\
    Arrows._left_arrow self' = true /\
    Arrows._right_arrow self' = false.
Proof.
  destruct (update_navi_arrow_shows Arrows.initial (PI / 2) 0)
    as (self' & Hrun & _ & Hfar).
  exists self'. split; [exact Hrun|].
  replace (PI / 2 - 0) with (PI / 2) in Hfar by ring.
  destruct Hfar as (Hshow & Hone & Hleft).
  - pose proof PI2_1. rewrite Rabs_pos_eq; lra.
  - assert (Hl : Arrows._left_arrow self' = true)
      by (apply Hleft; rewrite sin_PI2; lra).
    split; [exact Hshow|]. split; [exact Hl|].
    rewrite Hl in Hone. destruct (Arrows._right_arrow self');
      [discriminate | reflexivity].
Defined.

Lemma add_noise_to_cloud_points_outcome_witness :
  exists noisy,
    _add_noise_to_cloud_points (fun _ => 1) (fun _ => 1 / 2)
      [1 / 2; 3 / 4] 1 (1 / 4) = Ok noisy /\
    List.length noisy = 2%nat /\
    Forall in_unit_interval noisy.
Proof.
  destruct (add_noise_spec (fun _ => 1) (fun _ => 1 / 2) [1 / 2; 3 / 4] 1
              (1 / 4)) as (noisy & Hrun & _); [lra|].
  exists noisy. split; [exact Hrun|].
  destruct (add_noise_to_cloud_points_outcome (fun _ => 1) (fun _ => 1 / 2)
              [1 / 2; 3 / 4] 1 (1 / 4)) as (_ & _ & Hok).
  destruct (Hok noisy Hrun) as (Hlen & Hunit & _).
  split; [exact Hlen|]. apply Hunit. left. lra.
Defined.

(** * What the feature vector holds *)

(** A successful [update_navigation_localization], followed to the vector it
    leaves: the window is the one the tracker left, the two target roads
    are read through it, and the vector is what [_get_info_for_checkpoint]
    gave for the lanes of the first road, then for those of the second,
    for the vehicle of the call. *)
Lemma update_navigation_localization_vector
  space self ego_vehicle possible_lanes self' ego_vehicle' r :
  update_navigation_localization space self ego_vehicle possible_lanes
    = Ok (self', ego_vehicle', r) ->
  exists self1 changed cps w n1 n2 n3 n4 m lanes1 lanes2
         info1 h1 cp1 info2 h2 cp2,
    _update_target_checkpoints self (snd r)
      (fst (Lane.local_coordinates (fst r) (Vehicle.position ego_vehicle)))
    = Ok (self1, changed) /\
    checkpoints self' = Some cps /\
    _target_checkpoints_index self1 = Some w /\
    _target_checkpoints_index self' = Some w /\
    target_roads cps w = Ok (n1, n2, n3, n4) /\
    map self' = Some m /\
    RoadNetwork.lanes (Map.road_network m) n1 n2 = Ok lanes1 /\
    RoadNetwork.lanes (Map.road_network m) n3 n4 = Ok lanes2 /\
    current_ref_lanes self' = Some lanes1 /\
    Vehicle.position ego_vehicle' = Vehicle.position ego_vehicle /\
    Vehicle.projection ego_vehicle' = Vehicle.projection ego_vehicle /\
    _get_info_for_checkpoint space self' 0 lanes1 ego_vehicle'
      = Ok (info1, h1, cp1) /\
    _get_info_for_checkpoint space self' 1 lanes2 ego_vehicle'
      = Ok (info2, h2, cp2) /\
    _navi_info self' = info1 ++ info2 /\
    checkpoints self1 = Some cps /\
    map self1 = Some m.
Proof.
  unfold update_navigation_localization. intros H.
  destruct (get_current_lane self possible_lanes) as [found|] eqn:Hfound;
    simpl in H; [|discriminate].
  match type of H with
  | bind ?c _ = _ => destruct c as [[[lane li] ego1]|] eqn:Hloc
  end; simpl in H; [|discriminate].
  assert (Hego : Vehicle.position ego1 = Vehicle.position ego_vehicle /\
                 Vehicle.projection ego1 = Vehicle.projection ego_vehicle).
  { destruct found as [[l i]|].
    - injection Hloc as _ _ <-. split; reflexivity.
    - destruct (FORCE_CALCULATE self).
      + destruct (map self) as [m0|]; simpl in Hloc; [|discriminate].
        destruct (RoadNetwork.get_closest_lane_index _ _) as [li0 d0].
        destruct (RoadNetwork.get_lane _ li0); simpl in Hloc;
          [|discriminate].
        injection Hloc as _ _ <-. split; reflexivity.
      + injection Hloc as _ _ <-. split; reflexivity. }
  destruct (_update_target_checkpoints self li _) as [[self1 changed]|] eqn:Hup;
    simpl in H; [|discriminate].
  destruct (checkpoints self1) as [cps|] eqn:Hc; simpl in H; [|discriminate].
  destruct (2 <? List.length cps)%nat eqn:Hlen; simpl in H; [|discriminate].
  destruct (_target_checkpoints_index self1) as [w|] eqn:Hw; simpl in H;
    [|discriminate].
  destruct (target_roads cps w) as [[[[n1 n2] n3] n4]|] eqn:Hroads;
    simpl in H; [|discriminate].
  destruct (map self1) as [m|] eqn:Hm; simpl in H; [|discriminate].
  destruct (RoadNetwork.lanes _ n1 n2) as [lanes1|] eqn:Hl1; simpl in H;
    [|discriminate].
  destruct (RoadNetwork.lanes _ n3 n4) as [lanes2|] eqn:Hl2; simpl in H;
    [|discriminate].
  destruct (_get_info_for_checkpoint space _ 0 lanes1 ego1)
    as [[[info1 h1] cp1]|] eqn:Hi1; simpl in H; [|discriminate].
  destruct (np_set_head _ _ info1) as [navi1|] eqn:Hn1; simpl in H;
    [|discriminate].
  destruct (_get_info_for_checkpoint space _ 1 lanes2 ego1)
    as [[[info2 h2] cp2]|] eqn:Hi2; simpl in H; [|discriminate].
  destruct (np_set_tail navi1 _ info2) as [navi2|] eqn:Hn2; simpl in H;
    [|discriminate].
  match type of H with
  | bind ?c _ = _ => destruct c as [goal|] eqn:Hgoal
  end; simpl in H; [|discriminate].
  injection H as <- <- <-.
  exists self1, changed, cps, w, n1, n2, n3, n4, m, lanes1, lanes2,
    info1, h1, cp1, info2, h2, cp2.
  split; [exact Hup|]. split; [exact Hc|]. split; [exact Hw|].
  split; [exact Hw|]. split; [exact Hroads|]. split; [exact Hm|].
  split; [exact Hl1|]. split; [exact Hl2|]. split; [reflexivity|].
  split; [apply Hego|]. split; [apply Hego|].
  split; [exact Hi1|]. split; [exact Hi2|].
  pose proof Hi1 as Hi1'. pose proof Hi2 as Hi2'.
  apply get_info_for_checkpoint_inv in Hi1', Hi2'.
  destruct Hi1' as (? & ? & ? & ? & ? & ? & _ & _ & _ & _ & _ & E1).
  destruct Hi2' as (? & ? & ? & ? & ? & ? & _ & _ & _ & _ & _ & E2).
  unfold np_set_head in Hn1. bind_inv Hn1. injection Hn1 as <-.
  unfold np_set_tail in Hn2. bind_inv Hn2. injection Hn2 as <-.
  split; [simpl; rewrite E1; reflexivity|]. split; [exact Hc | exact Hm].
Qed.

(** C2: [get_navi_info()] always returns a vector of length 10
    ([navigation_info_dim]), every element of which lies in [0, 1]: after
    construction, after [set_route] and after any successful call of
    [update_navigation_localization].  After such a call on a vehicle, the
    vector is this one: take the window the tracker left for the lane and
    longitude the call localized, the two roads read through it in the
    route and the first lane of each in the graph; for each of the two, in
    that order, the vector holds the five scalars
    [(proj_heading / NAVI_POINT_DIST + 1) / 2],
    [(proj_side / NAVI_POINT_DIST + 1) / 2], [bendradius],
    [(dir + 1) / 2] and [(rad2deg(angle) / max_angle + 1) / 2], each clipped
    to [0, 1], where the projections are those, by the vehicle, of the
    clamped vector from the vehicle to the end of that lane, and
    [bendradius], [dir] and [angle] are those of that lane, with the lane
    count of the first road and the lane width of the map.  The same five
    scalars are what every call of [_get_info_for_checkpoint] returns. *)
Theorem navi_info_in_unit_interval space self :
  reachable space self ->
  navigation_info_dim = 10%nat /\
  List.length (get_navi_info self) = navigation_info_dim /\
  Forall in_unit_interval (get_navi_info self) /\
  (forall ego_vehicle possible_lanes self' ego_vehicle' r,
      update_navigation_localization space self ego_vehicle possible_lanes
        = Ok (self', ego_vehicle', r) ->
      exists self1 changed cps w n1 n2 n3 n4 m lanes1 lanes2 ref1 ref2
             b1 d1 a1 b2 d2 a2,
        _update_target_checkpoints self (snd r)
          (fst (Lane.local_coordinates (fst r)
                  (Vehicle.position ego_vehicle)))
        = Ok (self1, changed) /\
        _target_checkpoints_index self1 = Some w /\
        _target_checkpoints_index self' = Some w /\
        checkpoints self = Some cps /\
        checkpoints self' = Some cps /\
        nth_error cps (fst w) = Some n1 /\
        nth_error cps (fst w + 1) = Some n2 /\
        nth_error cps (snd w) = Some n3 /\
        nth_error cps (snd w + 1) = Some n4 /\
        map self = Some m /\
        RoadNetwork.lanes (Map.road_network m) n1 n2 = Ok lanes1 /\
        RoadNetwork.lanes (Map.road_network m) n3 n4 = Ok lanes2 /\
        nth_error lanes1 0 = Some ref1 /\
        nth_error lanes2 0 = Some ref2 /\
        let lane_num := List.length lanes1 in
        let lane_width := Map.lane_width m in
        let later_middle := later_middle_of lane_num lane_width in
        let proj1 :=
          Vehicle.projection ego_vehicle
            (dir_vec_to (lane_end_point ref1 later_middle)
               (Vehicle.position ego_vehicle)) in
        let proj2 :=
          Vehicle.projection ego_vehicle
            (dir_vec_to (lane_end_point ref2 later_middle)
               (Vehicle.position ego_vehicle)) in
        bend_of space ref1 lane_num lane_width = Ok (b1, d1, a1) /\
        bend_of space ref2 lane_num lane_width = Ok (b2, d2, a2) /\
        get_navi_info self' =
        [ clip ((fst proj1 / NAVI_POINT_DIST + 1) / 2) 0 1;
          clip ((snd proj1 / NAVI_POINT_DIST + 1) / 2) 0 1;
          clip b1 0 1;
          clip ((d1 + 1) / 2) 0 1;
          clip ((rad2deg a1 / CurveSpace.angle_max space + 1) / 2) 0 1;
          clip ((fst proj2 / NAVI_POINT_DIST + 1) / 2) 0 1;
          clip ((snd proj2 / NAVI_POINT_DIST + 1) / 2) 0 1;
          clip b2 0 1;
          clip ((d2 + 1) / 2) 0 1;
          clip ((rad2deg a2 / CurveSpace.angle_max space + 1) / 2) 0 1 ]) /\
  (forall s lanes_id lanes ego_vehicle info lanes_heading check_point,
      _get_info_for_checkpoint space s lanes_id lanes ego_vehicle
        = Ok (info, lanes_heading, check_point) ->
      exists ref_lane refs m bendradius dir angle,
        nth_error lanes 0 = Some ref_lane /\
        current_ref_lanes s = Some refs /\
        map s = Some m /\
        let lane_num := List.length refs in
        let lane_width := Map.lane_width m in
        check_point =
        lane_end_point ref_lane (later_middle_of lane_num lane_width) /\
        bend_of space ref_lane lane_num lane_width
          = Ok (bendradius, dir, angle) /\
        let proj :=
          Vehicle.projection ego_vehicle
            (dir_vec_to check_point (Vehicle.position ego_vehicle)) in
        info =
        [ clip ((fst proj / NAVI_POINT_DIST + 1) / 2) 0 1;
          clip ((snd proj / NAVI_POINT_DIST + 1) / 2) 0 1;
          clip bendradius 0 1;
          clip ((dir + 1) / 2) 0 1;
          clip ((rad2deg angle / CurveSpace.angle_max space + 1) / 2) 0 1 ]).
Proof.
  intros Hreach.
  assert (Hinfo : forall s lanes_id lanes ego info h cp,
             _get_info_for_checkpoint space s lanes_id lanes ego
               = Ok (info, h, cp) ->
             exists ref_lane refs m b d an,
               nth_error lanes 0 = Some ref_lane /\
               current_ref_lanes s = Some refs /\
               map s = Some m /\
               cp = lane_end_point ref_lane
                      (later_middle_of (List.length refs)
                         (Map.lane_width m)) /\
               bend_of space ref_lane (List.length refs) (Map.lane_width m)
                 = Ok (b, d, an) /\
               info =
               encode space
                 (fst (Vehicle.projection ego
                         (dir_vec_to cp (Vehicle.position ego))))
                 (snd (Vehicle.projection ego
                         (dir_vec_to cp (Vehicle.position ego))))
                 b d an).
  { intros s lanes_id lanes ego info h cp H.
    apply get_info_for_checkpoint_inv in H.
    destruct H as (ref_lane & n & wd & b & d & an & Hget & Hnum & Hwidth
                   & Hcp & Hbend & Hi).
    unfold Py.getitem in Hget.
    destruct (nth_error lanes 0) as [x|] eqn:Hx; simpl in Hget;
      [|discriminate]. injection Hget as ->.
    unfold get_current_lane_num in Hnum.
    destruct (current_ref_lanes s) as [refs|]; simpl in Hnum; [|discriminate].
    injection Hnum as <-.
    unfold get_current_lane_width in Hwidth.
    destruct (map s) as [m|]; simpl in Hwidth; [|discriminate].
    injection Hwidth as <-.
    exists ref_lane, refs, m, b, d, an. auto 10. }
  destruct (reachable_shape space self Hreach) as [Hlen _].
  assert (Hunit : Forall in_unit_interval (get_navi_info self)).
  { unfold get_navi_info. clear Hlen.
    induction Hreach as [onscreen | self m _ IH | self force _ IH
                        | self a b self' _ IH Hroute
                        | self ego hits self' ego' r _ _ Hup].
    - apply zeros_unit.
    - exact IH.
    - exact IH.
    - apply set_route_inv in Hroute.
      destruct Hroute as (m & cps & n0 & l2 & fls & refs & n1 & fl & _ & _ & _
                          & _ & _ & _ & _ & _ & _ & _ & _ & _ & _ & _ & _ & _
                          & Hnavi & _).
      rewrite Hnavi. apply fill_zero_unit.
    - apply update_navigation_localization_vector in Hup.
      destruct Hup as (s1 & ch & cps & w & n1 & n2 & n3 & n4 & m & l1 & l2
                       & i1 & h1 & c1 & i2 & h2 & c2 & _ & _ & _ & _ & _ & _
                       & _ & _ & _ & _ & _ & Hi1 & Hi2 & -> & _).
      apply Hinfo in Hi1, Hi2.
      destruct Hi1 as (? & ? & ? & ? & ? & ? & _ & _ & _ & _ & _ & ->).
      destruct Hi2 as (? & ? & ? & ? & ? & ? & _ & _ & _ & _ & _ & ->).
      apply Forall_app. split; apply encode_unit. }
  split; [reflexivity|]. split; [exact Hlen|]. split; [exact Hunit|]. split.
  - intros ego hits self' ego' r Hup.
    apply update_navigation_localization_vector in Hup.
    destruct Hup as (s1 & ch & cps & w & n1 & n2 & n3 & n4 & m & l1 & l2
                     & i1 & h1 & c1 & i2 & h2 & c2 & Htrack & Hc & Hw1 & Hw
                     & Hroads & Hm & Hl1 & Hl2 & Hrefs & Hpos & Hproj
                     & Hi1 & Hi2 & Hnavi & Hc1 & Hm1').
    assert (Hself : checkpoints self = Some cps /\ map self = Some m).
    { pose proof (update_target_checkpoints_shape _ _ _ _ _ Htrack) as Hs.
      destruct Hs as [[E _] | [w0 [E _]]]; rewrite E in Hc1, Hm1';
        split; assumption. }
    destruct Hself as [Hcs Hms].
    apply target_roads_nth in Hroads.
    destruct Hroads as (Hn1 & Hn2 & Hn3 & Hn4).
    apply Hinfo in Hi1, Hi2.
    destruct Hi1 as (ref1 & refs1 & m1 & b1 & d1 & a1 & Hr1 & Hrefs1 & Hm1
                     & Hcp1 & Hb1 & ->).
    destruct Hi2 as (ref2 & refs2 & m2 & b2 & d2 & a2 & Hr2 & Hrefs2 & Hm2
                     & Hcp2 & Hb2 & ->).
    rewrite Hrefs in Hrefs1, Hrefs2. injection Hrefs1 as <-.
    injection Hrefs2 as <-.
    rewrite Hm in Hm1, Hm2. injection Hm1 as <-. injection Hm2 as <-.
    subst c1 c2. rewrite Hpos, Hproj in Hnavi.
    exists s1, ch, cps, w, n1, n2, n3, n4, m, l1, l2, ref1, ref2,
      b1, d1, a1, b2, d2, a2.
    split; [exact Htrack|]. split; [exact Hw1|]. split; [exact Hw|].
    split; [exact Hcs|]. split; [exact Hc|].
    split; [exact Hn1|]. split; [exact Hn2|]. split; [exact Hn3|].
    split; [exact Hn4|]. split; [exact Hms|].
    split; [exact Hl1|]. split; [exact Hl2|].
    split; [exact Hr1|]. split; [exact Hr2|].
    cbv zeta. split; [exact Hb1|]. split; [exact Hb2|].
    unfold get_navi_info. rewrite Hnavi. reflexivity.
  - intros s lanes_id lanes ego info h cp H.
    apply Hinfo in H.
    destruct H as (ref_lane & refs & m & b & d & an & Hx & Hrefs & Hm & Hcp
                   & Hbend & ->).
    exists ref_lane, refs, m, b, d, an.
    split; [exact Hx|]. split; [exact Hrefs|]. split; [exact Hm|].
    cbv zeta. split; [exact Hcp|]. split; [exact Hbend | reflexivity].
Qed.

Lemma navi_info_in_unit_interval_witness :
  exists s v r,
    update_navigation_localization Example.space Example.routed
      (Example.vehicle_at 1 0)
      [(Example.ab0, ("A", "B", 0%nat)%string, 0)]
    = Ok (s, v, r) /\
    List.length (get_navi_info s) = navigation_info_dim /\
    Forall in_unit_interval (get_navi_info s).
Proof.
  destruct example_update_returns as (s & v & r & Hup).
  exists s, v, r. split; [exact Hup|].
  destruct (navi_info_in_unit_interval Example.space s)
    as (_ & Hlen & Hunit & _).
  - eapply reach_update; [|exact Hup].
    eapply reach_set_route; [|exact example_set_route].
    apply reach_map, reach_init.
  - split; [exact Hlen | exact Hunit].
Defined.
